(** * Fast F-matrix methods: worker-side map/reduce code

    Shallow embedding of
    [src/sage/combinat/root_system/fast_parallel_fmats_methods.pyx]
    and the properties of it that the specification states.

    Conventions of the embedding.
    - A Python/Cython call either returns, raises, or (for the C-level
      operations compiled with [cdivision(True)] and for [ctypes.cast] on an
      arbitrary address) has undefined behaviour: type [outcome].  What a
      call had done to the state before it raised is not kept.
    - The module-level global [worker_results] and the lines printed are
      threaded explicitly (type [worker]); the process id that
      [pent_verify] prints is left out.
    - Integers are [Z].  A C [int] is a [Z] that passed the range check of
      the conversion from a Python integer; the [unsigned long] counter of
      the loops wraps around at [2^64].
    - Python tuples of basis elements are lists; unpacking a tuple of the
      wrong length raises [ValueError].
    - The fusion ring, the polynomial ring and the functions of
      [poly_tup_engine] are collaborators that are not part of this file of
      the program; they are parameters of the development. *)

From Stdlib Require Import ZArith Lia.
From Stdlib Require Import Floats.SpecFloat.
From stdpp Require Import base option list sorting countable gmap strings.

Local Open Scope Z_scope.

(** ** Outcomes of calls *)

Inductive exn :=
  | AttributeError
  | KeyError
  | OverflowError
  | TypeError
  | ValueError
  | ZeroDivisionError.

Inductive outcome (T : Type) :=
  | Ret (t : T)
  | Raise (e : exn)
  | Undefined.
Arguments Ret {T} t.
Arguments Raise {T} e.
Arguments Undefined {T}.

#[global] Instance outcome_ret : MRet outcome := @Ret.
#[global] Instance outcome_bind : MBind outcome := λ _ _ f m,
  match m with
  | Ret a => f a
  | Raise e => Raise e
  | Undefined => Undefined
  end.

#[global] Instance exn_eq_dec : EqDecision exn.
Proof. solve_decision. Defined.

#[global] Instance outcome_eq_dec {T} `{EqDecision T} : EqDecision (outcome T).
Proof. solve_decision. Defined.

Definition returns {T} (m : outcome T) : Prop := ∃ t, m = Ret t.

#[global] Instance returns_dec {T} (m : outcome T) : Decision (returns m).
Proof.
  destruct m as [t|e|]; [left; by exists t|right..]; intros [t Ht];
    discriminate Ht.
Defined.

(** A [for] loop whose body threads a state and may fail. *)
Fixpoint for_each {X S} (body : X → S → outcome S) (xs : list X) (s : S)
    : outcome S :=
  match xs with
  | [] => Ret s
  | x :: xs' => s' ← body x s; for_each body xs' s'
  end.

(** ** C integer types *)

Definition ULONG_MOD : Z := 2 ^ 64.
Definition INT_MIN : Z := - 2 ^ 31.
Definition INT_MAX : Z := 2 ^ 31 - 1.

(** Value of a C [unsigned long] after arithmetic or conversion. *)
Definition wrap_ulong (z : Z) : Z := z mod ULONG_MOD.

(** Conversion of a Python integer to a C [int] (raises when out of range). *)
Definition as_int (z : Z) : outcome Z :=
  if bool_decide (INT_MIN ≤ z ≤ INT_MAX) then Ret z else Raise OverflowError.

(** ** itertools *)

(** [itertools.product(xs, repeat=r)]: lexicographic, last position fastest. *)
Fixpoint product {X} (xs : list X) (r : nat) : list (list X) :=
  match r with
  | O => [[]]
  | S r' => x ← xs; (x ::.) <$> product xs r'
  end.

(** The counter of [for i, x in enumerate(...)] when [i] is declared
    [unsigned long]: a C counter starting at [start], incremented after each
    element. *)
Fixpoint enumerate_ulong {X} (start : Z) (xs : list X) : list (Z * X) :=
  match xs with
  | [] => []
  | x :: xs' => (start, x) :: enumerate_ulong (wrap_ulong (start + 1)) xs'
  end.

(** The positions at which a [for] loop entered its body: the elements
    consumed from the iterator, up to the first failure of the body. *)
Fixpoint for_each_steps {X S} (body : X → S → outcome S) (xs : list X)
    (s : S) : list X :=
  match xs with
  | [] => []
  | x :: xs' =>
      x :: match body x s with
           | Ret s' => for_each_steps body xs' s'
           | _ => []
           end
  end.

(** ** C [float] (IEEE binary32) *)

Definition float_prec : Z := 24.
Definition float_emax : Z := 128.

(** The literal [0.0]. *)
Definition float_zero : spec_float := S754_zero false.

(** The default [tol=5e-8] of [feq_verif], as the nearest C [float]. *)
Definition tol_default : spec_float := S754_finite false 14073749 (-48).

#[global] Instance spec_float_eq_dec : EqDecision spec_float.
Proof. solve_decision. Defined.

#[global] Instance spec_float_countable : Countable spec_float :=
  inj_countable'
    (λ x : spec_float, match x with
          | S754_zero s => inl (inl s)
          | S754_infinity s => inl (inr s)
          | S754_nan => inr (inl ())
          | S754_finite s m e => inr (inr (s, m, e))
          end)
    (λ y : bool + bool + (unit + bool * positive * Z), match y with
          | inl (inl s) => S754_zero s
          | inl (inr s) => S754_infinity s
          | inr (inl _) => S754_nan
          | inr (inr (s, m, e)) => S754_finite s m e
          end)
    (λ x, match x with
          | S754_zero _ | S754_infinity _ | S754_nan | S754_finite _ _ _ =>
              eq_refl
          end).

(** ** The index partitioner *)

(** The items of [enumerate(xs)] on which the test of the loop,
    [i % n_proc == child_id], evaluates to true. *)
Definition strided {X} (test : Z → outcome bool) (xs : list X)
    : list (Z * X) :=
  filter (λ it, test it.1 = Ret true) (enumerate_ulong 0 xs).

(** *** In the words of the specification *)

(** [assign(total_size, worker_id, worker_count)]: the positions [i] of
    [[0, total_size)] with [i mod worker_count == worker_id], in increasing
    order. *)
Definition assign (total_size worker_id worker_count : Z) : list Z :=
  filter (λ i, i mod worker_count = worker_id) (seqZ 0 total_size).

(** The index tuple of a position, computed from the position alone: its
    digits in base [|xs|], most significant first, as elements of [xs]. *)
Fixpoint index_tuple {X} (xs : list X) (r : nat) (i : nat)
    : option (list X) :=
  match r with
  | O => if decide (i = 0%nat) then Some [] else None
  | S r' =>
      x ← xs !! (i / length xs ^ r')%nat;
      t ← index_tuple xs r' (i mod length xs ^ r')%nat;
      Some (x :: t)
  end.

(** ** The factory *)

(** Interface of the ring the F-symbols and R-matrix entries live in. *)
Class RingOps (P : Type) := {
  r_of_int : Z → P;
  r_add : P → P → P;
  r_sub : P → P → P;
  r_mul : P → P → P;
  r_is_zero : P → bool;
}.

Section Factory.
Context {A : Type} `{Countable A}.
Context {P : Type} `{RingOps P}.
(** Monomials (exponent tuples) and coefficients of the sparse
    representation of [poly_tup_engine]. *)
Context {Mon K : Type} `{Countable Mon} `{Countable K}.
(** State of the F-matrix factory that this module only passes around. *)
Context {Solved KS VarDegs NNZ KP KV : Type}.

(** [factory.FR]: the fusion ring. *)
Record FusionRing := {
  Nk_ij : A → A → A → Z;
  one : A;
  basis : list A;
  r_matrix : A → A → A → P;
}.

(** The attributes of the [FMatrix] object that this module reads or
    writes. *)
Record FMatrix := {
  FR : FusionRing;
  _poly_ring_zero : P;
  _fvars : gmap (A * A * A * A * A * A) P;
  solved : Solved;
  _ks : KS;
  _var_degs : VarDegs;
  _nnz : NNZ;
  _kp : KP;
}.

(** Values that the arithmetic of the generators manipulates: Python
    integers (the constants [0] and [1]) and ring elements. *)
Inductive pyval :=
  | PyInt (z : Z)
  | Elt (p : P).

Definition coerce (v : pyval) : P :=
  match v with
  | PyInt z => r_of_int z
  | Elt p => p
  end.

Definition py_mul (x y : pyval) : pyval :=
  match x, y with
  | PyInt a, PyInt b => PyInt (a * b)
  | _, _ => Elt (r_mul (coerce x) (coerce y))
  end.

Definition py_add (x y : pyval) : pyval :=
  match x, y with
  | PyInt a, PyInt b => PyInt (a + b)
  | _, _ => Elt (r_add (coerce x) (coerce y))
  end.

Definition py_sub (x y : pyval) : pyval :=
  match x, y with
  | PyInt a, PyInt b => PyInt (a - b)
  | _, _ => Elt (r_sub (coerce x) (coerce y))
  end.

(** [v == 0] *)
Definition py_eq0 (v : pyval) : bool :=
  match v with
  | PyInt z => bool_decide (z = 0)
  | Elt p => r_is_zero p
  end.

(** Truth value of [v] in [if v:]. *)
Definition py_truth (v : pyval) : bool := negb (py_eq0 v).

(** [factory._fvars[a,b,c,d,x,y]] *)
Definition fvars_getitem (factory : FMatrix) (k : A * A * A * A * A * A)
    : outcome pyval :=
  match _fvars factory !! k with
  | Some v => Ret (Elt v)
  | None => Raise KeyError
  end.

Definition _fmat (factory : FMatrix) (a b c d x y : A) : outcome pyval :=
  let N := Nk_ij (FR factory) in
  if bool_decide (N a b x = 0) || bool_decide (N x c d = 0)
     || bool_decide (N b c y = 0) || bool_decide (N a y d = 0)
  then Ret (PyInt 0)
  else if bool_decide (a = one (FR factory)) then
    if bool_decide (x = b) && bool_decide (y = d)
    then Ret (PyInt 1) else Ret (PyInt 0)
  else if bool_decide (b = one (FR factory)) then
    if bool_decide (x = a) && bool_decide (y = c)
    then Ret (PyInt 1) else Ret (PyInt 0)
  else if bool_decide (c = one (FR factory)) then
    if bool_decide (x = d) && bool_decide (y = b)
    then Ret (PyInt 1) else Ret (PyInt 0)
  else fvars_getitem factory (a, b, c, d, x, y).

(** *** Collaborators *)

(** Functions of [poly_tup_engine] and the [dict()] method of ring
    elements.  A sparse polynomial is the sequence of its
    (monomial, coefficient) pairs: a Python [dict] in insertion order, or
    a [tuple]; the zero polynomial is the empty tuple. *)
Class PolyTupEngine := {
  poly_dict : P → list (Mon * K);
  reduce_poly_dict : list (Mon * K) → NNZ → KS → list (Mon * K);
  subs : list (Mon * K) → KP → list (Mon * K);
  tup_fixes_sq : list (Mon * K) → bool;
  to_monic : list (Mon * K) → list (Mon * K);
  compute_known_powers : VarDegs → KV → KP;
}.

(** Methods of the [FMatrix] class that [update_child_fmats] calls. *)
Class FMatrixMethods := {
  get_known_nonz : FMatrix → NNZ;
  get_known_vals : FMatrix → KV;
}.

(** Conversions between Python numbers and the C [float] locals of
    [feq_verif]: [x = <float> obj] and [x += obj]. *)
Class FloatCoercion := {
  obj_to_float : pyval → outcome spec_float;
  float_iadd_obj : spec_float → pyval → outcome spec_float;
}.

Context `{PolyTupEngine} `{FMatrixMethods} `{FloatCoercion}.

(** *** The worker process *)

(** Entries of [worker_results]: reduced equations, or the deviations that
    the verification pass records.  Python compares the tuples component by
    component, and the deviations as numbers; on the deviations that are
    recorded this is the equality of their representations (lemma
    [recorded_deviation_is_a_number]). *)
Inductive result :=
  | Eqn (t : list (Mon * K))
  | Diff (d : spec_float).

(** Lines printed by [pent_verify]. [ran = None] stands for the value of
    the C variable [i] when the loop body never ran. *)
Inductive line :=
  | Progress (millions : Z) (misses : nat)
  | Summary (ran : option Z) (child_id : Z) (misses : nat).

Record worker := {
  worker_results : list result;
  stdout : list line;
}.

(** [worker_results.append(r)] *)
Definition append (r : result) (w : worker) : worker :=
  {| worker_results := worker_results w ++ [r]; stdout := stdout w |}.

Definition print (l : line) (w : worker) : worker :=
  {| worker_results := worker_results w; stdout := stdout w ++ [l] |}.

(** *** Mappers *)

Definition unpack6 (t : list A) : outcome (A * A * A * A * A * A) :=
  match t with
  | [a; b; c; d; e; g] => Ret (a, b, c, d, e, g)
  | _ => Raise ValueError
  end.

Definition unpack9 (t : list A)
    : outcome (A * A * A * A * A * A * A * A * A) :=
  match t with
  | [a; b; c; d; e; f; g; k; l] => Ret (a, b, c, d, e, f, g, k, l)
  | _ => Raise ValueError
  end.

(** [he.dict()] *)
Definition dict_method (he : pyval) : outcome (list (Mon * K)) :=
  match he with
  | Elt p => Ret (poly_dict p)
  | PyInt _ => Raise AttributeError
  end.

Definition req_cy (factory : FMatrix) (sextuple : list A) (side : string)
    : outcome pyval :=
  '(a, b, c, d, e, g) ← unpack6 sextuple;
  let R := r_matrix (FR factory) in
  f0 ← _fmat factory a c b d e g;
  let lhs := py_mul (py_mul (Elt (R a c e)) f0) (Elt (R b c g)) in
  rhs ← for_each (λ f rhs,
            f1 ← _fmat factory c a b d e f;
            f2 ← _fmat factory a b c d f g;
            Ret (py_add rhs (py_mul (py_mul f1 (Elt (R f c d))) f2)))
          (basis (FR factory)) (PyInt 0);
  Ret (py_sub lhs rhs).

(** [i % n_proc == child_id] on Python objects ([i] is converted). *)
Definition py_stride_test (i n_proc child_id : Z) : outcome bool :=
  if bool_decide (n_proc = 0) then Raise ZeroDivisionError
  else Ret (bool_decide (i mod n_proc = child_id)).

(** [i % n_proc == child_id] with [unsigned long i] and
    [int child_id, n_proc] under [cdivision(True)]: both [int]s are
    converted to [unsigned long], and no test for zero is made. *)
Definition c_stride_test (i n_proc child_id : Z) : outcome bool :=
  let n := wrap_ulong n_proc in
  if bool_decide (n = 0) then Undefined
  else Ret (bool_decide (i mod n = wrap_ulong child_id)).

(** Body of the branch [if i % n_proc == child_id:] of
    [get_reduced_hexagons]. *)
Definition hexagon_generate (factory : FMatrix) (sextuple : list A)
    (w : worker) : outcome worker :=
  he ← req_cy factory sextuple "left";
  if py_truth he then
    d ← dict_method he;
    Ret (append (Eqn (reduce_poly_dict d (_nnz factory) (_ks factory))) w)
  else Ret w.

Definition hexagon_body (factory : FMatrix) (child_id n_proc : Z)
    (it : Z * list A) (w : worker) : outcome worker :=
  mine ← py_stride_test it.1 n_proc child_id;
  if mine : bool then hexagon_generate factory it.2 w else Ret w.

Definition get_reduced_hexagons (factory : FMatrix) (mp_params : Z * Z)
    (w : worker) : outcome worker :=
  let '(child_id, n_proc) := mp_params in
  for_each (hexagon_body factory child_id n_proc)
    (enumerate_ulong 0 (product (basis (FR factory)) 6)) w.

Definition feq_cy (factory : FMatrix) (nonuple : list A) (prune : bool)
    : outcome P :=
  '(a, b, c, d, e, f, g, k, l) ← unpack9 nonuple;
  f0 ← _fmat factory f c d e g l;
  f1 ← _fmat factory a b l e f k;
  let lhs := py_mul f0 f1 in
  if py_eq0 lhs && prune then Ret (_poly_ring_zero factory)
  else
    rhs ← for_each (λ h rhs,
              f2 ← _fmat factory a b c g f h;
              f3 ← _fmat factory a h d e g k;
              f4 ← _fmat factory b c d k h l;
              Ret (py_add rhs (py_mul (py_mul f2 f3) f4)))
            (basis (FR factory)) (Elt (_poly_ring_zero factory));
    match py_sub lhs rhs with
    | Elt p => Ret p
    | PyInt _ => Raise TypeError
    end.

(** Default value of the keyword argument [prune] of [feq_cy]. *)
Definition feq_cy_prune_default : bool := false.

(** Default value of the keyword argument [prune] of
    [get_reduced_pentagons]. *)
Definition get_reduced_pentagons_prune_default : bool := true.

Definition pentagon_generate (factory : FMatrix) (prune : bool)
    (nonuple : list A) (w : worker) : outcome worker :=
  pe ← feq_cy factory nonuple prune;
  if negb (r_is_zero pe) then
    Ret (append (Eqn (reduce_poly_dict (poly_dict pe)
                        (_nnz factory) (_ks factory))) w)
  else Ret w.

Definition pentagon_body (factory : FMatrix) (prune : bool)
    (child_id n_proc : Z) (it : Z * list A) (w : worker) : outcome worker :=
  mine ← c_stride_test it.1 n_proc child_id;
  if mine : bool then pentagon_generate factory prune it.2 w else Ret w.

(** [prune = None]: the caller did not pass the keyword argument. *)
Definition get_reduced_pentagons (factory : FMatrix) (mp_params : Z * Z)
    (prune : option bool) (w : worker) : outcome worker :=
  let prune := default get_reduced_pentagons_prune_default prune in
  child_id ← as_int mp_params.1;
  n_proc ← as_int mp_params.2;
  for_each (pentagon_body factory prune child_id n_proc)
    (enumerate_ulong 0 (product (basis (FR factory)) 9)) w.

Definition update_reduce (factory : FMatrix) (eq_tup : list (Mon * K))
    (w : worker) : worker :=
  let eq_dict := subs eq_tup (_kp factory) in
  let reduced :=
    if tup_fixes_sq eq_dict then to_monic eq_dict
    else reduce_poly_dict eq_dict (_nnz factory) (_ks factory) in
  append (Eqn reduced) w.

(** One-to-all communication used to update fvars after a triangular
    elimination step.  The attribute assignments, one by one. *)
Definition set_fvars (v : gmap (A * A * A * A * A * A) P) (f : FMatrix) :=
  {| FR := FR f; _poly_ring_zero := _poly_ring_zero f; _fvars := v;
     solved := solved f; _ks := _ks f; _var_degs := _var_degs f;
     _nnz := _nnz f; _kp := _kp f |}.
Definition set_solved (v : Solved) (f : FMatrix) :=
  {| FR := FR f; _poly_ring_zero := _poly_ring_zero f; _fvars := _fvars f;
     solved := v; _ks := _ks f; _var_degs := _var_degs f;
     _nnz := _nnz f; _kp := _kp f |}.
Definition set_ks (v : KS) (f : FMatrix) :=
  {| FR := FR f; _poly_ring_zero := _poly_ring_zero f; _fvars := _fvars f;
     solved := solved f; _ks := v; _var_degs := _var_degs f;
     _nnz := _nnz f; _kp := _kp f |}.
Definition set_var_degs (v : VarDegs) (f : FMatrix) :=
  {| FR := FR f; _poly_ring_zero := _poly_ring_zero f; _fvars := _fvars f;
     solved := solved f; _ks := _ks f; _var_degs := v;
     _nnz := _nnz f; _kp := _kp f |}.
Definition set_nnz (v : NNZ) (f : FMatrix) :=
  {| FR := FR f; _poly_ring_zero := _poly_ring_zero f; _fvars := _fvars f;
     solved := solved f; _ks := _ks f; _var_degs := _var_degs f;
     _nnz := v; _kp := _kp f |}.
Definition set_kp (v : KP) (f : FMatrix) :=
  {| FR := FR f; _poly_ring_zero := _poly_ring_zero f; _fvars := _fvars f;
     solved := solved f; _ks := _ks f; _var_degs := _var_degs f;
     _nnz := _nnz f; _kp := v |}.

Definition update_child_fmats (factory : FMatrix)
    (data_tup : gmap (A * A * A * A * A * A) P * Solved * KS * VarDegs)
    : FMatrix :=
  let '(v0, v1, v2, v3) := data_tup in
  let factory := set_fvars v0 factory in
  let factory := set_solved v1 factory in
  let factory := set_ks v2 factory in
  let factory := set_var_degs v3 factory in
  let factory := set_nnz (get_known_nonz factory) factory in
  set_kp (compute_known_powers (_var_degs factory) (get_known_vals factory))
    factory.

(** *** Reducers *)

#[global] Instance result_eq_dec : EqDecision result.
Proof. solve_decision. Defined.

#[global] Instance result_countable : Countable result :=
  inj_countable'
    (λ r, match r with Eqn t => inl t | Diff d => inr d end)
    (λ s, match s with inl t => Eqn t | inr d => Diff d end)
    (λ r, match r with Eqn _ | Diff _ => eq_refl end).

(** The order in which a Python [set] is iterated is that of the slots of
    its hash table; where an entry lies depends on the hashes of the
    entries and on the insertions that built the set.  [set_slot history r]
    ranks the entry [r] in the iteration of a set that was built from the
    list [history]; nothing is assumed about it. *)
Class SetOrder := {
  set_slot : list result → result → nat;
}.
Context {set_order : SetOrder}.

(** [list(s)] for a set [s] built from [history]: the entries of [s], each
    once, by their slots. *)
Definition slot_le (history : list result) : relation result :=
  λ x y, (set_slot history x ≤ set_slot history y)%nat.

#[global] Instance slot_le_dec history x y : Decision (slot_le history x y).
Proof. unfold slot_le. apply _. Defined.

Definition set_list (history : list result) (s : gset result)
    : list result :=
  merge_sort (slot_le history) (elements s).

(** Returns the list handed back to the parent and the worker
    afterwards. *)
Definition collect_eqns {Proc : Type} (proc : Proc) (w : worker)
    : list result * worker :=
  let reduced : gset result :=
    list_to_set (worker_results w) ∖ list_to_set [Eqn []] in
  (set_list (worker_results w) reduced,
   {| worker_results := []; stdout := stdout w |}).

(** *** Verification *)

(** The value of [diff] in [feq_verif]. *)
Definition feq_verif_diff (factory : FMatrix) (nonuple : list A)
    : outcome spec_float :=
  '(a, b, c, d, e, f, g, k, l) ← unpack9 nonuple;
  f0 ← _fmat factory f c d e g l;
  f1 ← _fmat factory a b l e f k;
  lhs ← obj_to_float (py_mul f0 f1);
  rhs ← for_each (λ h rhs,
            f2 ← _fmat factory a b c g f h;
            f3 ← _fmat factory a h d e g k;
            f4 ← _fmat factory b c d k h l;
            float_iadd_obj rhs (py_mul (py_mul f2 f3) f4))
          (basis (FR factory)) float_zero;
  Ret (SFsub float_prec float_emax lhs rhs).

(** [diff > tol or diff < -tol] *)
Definition exceeds (tol diff : spec_float) : bool :=
  SFltb tol diff || SFltb diff (SFopp tol).

(** [tol = None]: the caller did not pass the argument. *)
Definition feq_verif (factory : FMatrix) (nonuple : list A)
    (tol : option spec_float) (w : worker) : outcome worker :=
  let tol := default tol_default tol in
  diff ← feq_verif_diff factory nonuple;
  if exceeds tol diff then Ret (append (Diff diff) w) else Ret w.

Definition pent_verify_body (factory : FMatrix) (child_id n_proc : Z)
    (it : Z * list A) (w : worker) : outcome worker :=
  mine ← py_stride_test it.1 n_proc child_id;
  w ← (if mine : bool then feq_verif factory it.2 None w else Ret w);
  if bool_decide (it.1 mod 50000000 = 0) && negb (bool_decide (it.1 = 0))
  then Ret (print (Progress (it.1 / 1000000)
                     (length (worker_results w))) w)
  else Ret w.

Definition pent_verify (factory : FMatrix) (mp_params : Z * Z) (w : worker)
    : outcome worker :=
  let '(child_id, n_proc) := mp_params in
  let items := enumerate_ulong 0 (product (basis (FR factory)) 9) in
  w ← for_each (pent_verify_body factory child_id n_proc) items w;
  Ret (print (Summary (last (items.*1)) child_id
                (length (worker_results w))) w).

(** *** The items and the loop steps of a worker *)

(** The (position, tuple) pairs for which a worker runs the generator. *)
Definition hexagon_assigned (factory : FMatrix) (child_id n_proc : Z)
    : list (Z * list A) :=
  strided (λ i, py_stride_test i n_proc child_id)
    (product (basis (FR factory)) 6).

Definition pentagon_assigned (factory : FMatrix) (child_id n_proc : Z)
    : list (Z * list A) :=
  strided (λ i, c_stride_test i n_proc child_id)
    (product (basis (FR factory)) 9).

(** The (position, tuple) pairs on which [pent_verify] calls
    [feq_verif]. *)
Definition verify_assigned (factory : FMatrix) (child_id n_proc : Z)
    : list (Z * list A) :=
  strided (λ i, py_stride_test i n_proc child_id)
    (product (basis (FR factory)) 9).

(** In the words of the specification: the deviations [lhs - rhs] of the
    given items whose absolute value exceeds [tol], in the order of the
    items. *)
Definition deviations_beyond (tol : spec_float) (factory : FMatrix)
    (items : list (Z * list A)) : list result :=
  it ← items;
  match feq_verif_diff factory it.2 with
  | Ret diff => if SFltb tol (SFabs diff) then [Diff diff] else []
  | _ => []
  end.

(** The (position, tuple) pairs that the [for] loop of a worker binds. *)
Definition hexagon_steps (factory : FMatrix) (child_id n_proc : Z)
    (w : worker) : list (Z * list A) :=
  for_each_steps (hexagon_body factory child_id n_proc)
    (enumerate_ulong 0 (product (basis (FR factory)) 6)) w.

Definition pentagon_steps (factory : FMatrix) (prune : bool)
    (child_id n_proc : Z) (w : worker) : list (Z * list A) :=
  for_each_steps (pentagon_body factory prune child_id n_proc)
    (enumerate_ulong 0 (product (basis (FR factory)) 9)) w.

(** *** Parallel code executor *)

(** Arguments that cross the process boundary: the tuples that the
    functions of this module take, and [OtherArgs] for an object that is
    neither a tuple nor [None]. *)
Inductive payload :=
  | MpParams (mp_params : Z * Z)
  | EqTup (eq_tup : list (Mon * K))
  | DataTup (data_tup : gmap (A * A * A * A * A * A) P * Solved * KS
                        * VarDegs)
  | OtherArgs.

(** [len(args)] when [args] is a tuple. *)
Definition tuple_len (args : payload) : option nat :=
  match args with
  | MpParams _ => Some 2%nat
  | EqTup eq_tup => Some (length eq_tup)
  | DataTup _ => Some 4%nat
  | OtherArgs => None
  end.

Inductive retval :=
  | PyNone
  | PyObject.

(** What a call [fn(fmats_obj, args)] does: its return value, the object
    afterwards (it is passed by reference) and the worker afterwards. *)
Definition callable : Type :=
  FMatrix → payload → worker → outcome (retval * FMatrix * worker).

(** What is not modelled further: functions of this module, the callables
    that its [import] statements bind ([product(fmats_obj, args)] and the
    like), a function of this module called on a tuple of the right length
    but of another kind (the outcome depends on code outside this file),
    and the attributes that the runtime gives every module object
    ([__name__], [__doc__], ...). *)
Class Unmodelled := {
  compute_gb : callable;
  get_appropriate_number_field : callable;
  call_product : callable;
  call_Ideal : callable;
  call_PolynomialRing : callable;
  call_number_field_elements_from_algebraics : callable;
  ill_shaped : string → callable;
  runtime_attrs : gmap string callable;
}.
Context `{Unmodelled}.

(** A Python function that does not accept two positional arguments, or
    an attribute that is not callable. *)
Definition call_type_error : callable := λ _ _ _, Raise TypeError.

Definition lift_mapper (fn : FMatrix → worker → outcome worker) : callable :=
  λ factory _ w, w' ← fn factory w; Ret (PyNone, factory, w').

(** A function declared with [tuple args] that unpacks [args] into [n]
    names at once, on an argument of another kind: an object that is not a
    tuple is refused when the arguments are checked ([TypeError]), and a
    tuple of another length when it is unpacked ([ValueError]). *)
Definition misfit (n : nat) (fn_name : string) : callable :=
  λ factory args w,
  match tuple_len args with
  | None => Raise TypeError
  | Some m =>
      if decide (m = n) then ill_shaped fn_name factory args w
      else Raise ValueError
  end.

(** The attributes that the statements of this module bind: by its
    [import] statements ([cimport] binds nothing at run time), by the
    assignment to [worker_results], and by [def] and [cpdef] (the [cdef]
    functions are no attributes). *)
Definition module_defs : list (string * callable) :=
  [ ("ctypes", call_type_error);
    ("product", call_product);
    ("getpid", call_type_error);
    ("sage", call_type_error);
    ("Ideal", call_Ideal);
    ("PolynomialRing", call_PolynomialRing);
    ("number_field_elements_from_algebraics",
       call_number_field_elements_from_algebraics);
    ("worker_results", call_type_error);
    ("executor", call_type_error);
    ("get_reduced_hexagons", λ factory args,
       match args with
       | MpParams mp => lift_mapper (λ f, get_reduced_hexagons f mp)
                          factory args
       | _ => misfit 2 "get_reduced_hexagons" factory args
       end);
    ("get_reduced_pentagons", λ factory args,
       match args with
       | MpParams mp => lift_mapper (λ f, get_reduced_pentagons f mp None)
                          factory args
       | _ => misfit 2 "get_reduced_pentagons" factory args
       end);
    ("update_reduce", λ factory args,
       match args with
       | EqTup eq_tup =>
           lift_mapper (λ f w, Ret (update_reduce f eq_tup w)) factory args
       | OtherArgs => λ _, Raise TypeError
       | _ => ill_shaped "update_reduce" factory args
       end);
    ("compute_gb", compute_gb);
    ("update_child_fmats", λ factory args w,
       match args with
       | DataTup data_tup =>
           Ret (PyNone, update_child_fmats factory data_tup, w)
       | _ => misfit 4 "update_child_fmats" factory args w
       end);
    ("get_appropriate_number_field", get_appropriate_number_field);
    ("collect_eqns", call_type_error);
    ("pent_verify", λ factory args,
       match args with
       | MpParams mp => lift_mapper (λ f, pent_verify f mp) factory args
       | _ => misfit 2 "pent_verify" factory args
       end) ].

(** The attributes of the module object: what the module binds, and
    behind it what the runtime provides. *)
Definition this_module : gmap string callable :=
  list_to_map module_defs ∪ runtime_attrs.

(** The process: the [FMatrix] objects that live in it, by address ([id]),
    and the globals of this module. *)
Record process := {
  memory : gmap Z FMatrix;
  globals : worker;
}.

(** [ctypes.cast(fmats_id, ctypes.py_object).value]: the integer is taken
    for a pointer, modulo [2^64].  On the null pointer ctypes raises
    [ValueError]; it reads through any other pointer without a check, and
    on an address that holds no object the behaviour is undefined. *)
Definition py_object_value (p : process) (fmats_id : Z) : outcome FMatrix :=
  let addr := wrap_ulong fmats_id in
  if bool_decide (addr = 0) then Raise ValueError
  else match memory p !! addr with
       | Some fmats_obj => Ret fmats_obj
       | None => Undefined
       end.

(** [ns] is the namespace of the module at the time of the call. *)
Definition executor (ns : gmap string callable)
    (params : (string * Z) * payload) (p : process)
    : outcome (retval * process) :=
  let '((fn_name, fmats_id), args) := params in
  fmats_obj ← py_object_value p fmats_id;
  match ns !! fn_name with
  | None => Raise AttributeError
  | Some fn =>
      '(r, fmats_obj', w') ← fn fmats_obj args (globals p);
      Ret (r, {| memory := <[wrap_ulong fmats_id := fmats_obj']> (memory p);
                 globals := w' |})
  end.

End Factory.

(** ** A small instance, for evaluating the code on concrete inputs *)

(** Constants over [Z] as the ring; a polynomial in no variable is the
    one-entry sequence of its nonzero constant term.  Nothing is known about
    the variables: substitution and reduction leave an equation as it is. *)
Module Toy.

#[export] Instance Z_ring : RingOps Z := {|
  r_of_int := λ z, z;
  r_add := Z.add;
  r_sub := Z.sub;
  r_mul := Z.mul;
  r_is_zero := λ z, bool_decide (z = 0);
|}.

#[export] Instance engine : @PolyTupEngine Z (list nat) Z (list nat) (list nat)
                      (list nat) (list nat) (list nat) := {|
  poly_dict := λ z, if bool_decide (z = 0) then [] else [([], z)];
  reduce_poly_dict := λ d _ _, d;
  subs := λ t _, t;
  tup_fixes_sq := λ t,
    match t with
    | [(m0, _); (m1, _)] =>
        bool_decide (filter (λ e, e ≠ 0%nat) m0 = [2%nat])
        && bool_decide (filter (λ e, e ≠ 0%nat) m1 = [])
    | _ => false
    end;
  to_monic := λ d,
    match d with
    | (_, c) :: _ => (λ mc : list nat * Z, (mc.1, mc.2 / c)) <$> d
    | [] => []
    end;
  compute_known_powers := λ var_degs _, var_degs;
|}.

(** Integers as C [float]s. *)
Definition float_of_Z (z : Z) : spec_float :=
  binary_normalize float_prec float_emax z 0 false.

#[export] Instance coercion : @FloatCoercion Z := {|
  obj_to_float := λ v, Ret (float_of_Z (coerce v));
  float_iadd_obj := λ x v,
    Ret (SFadd float_prec float_emax x (float_of_Z (coerce v)));
|}.

Definition ring (b : list nat) : @FusionRing nat Z := {|
  Nk_ij := λ _ _ _, 1;
  one := 0%nat;
  basis := b;
  r_matrix := λ _ _ _, 1;
|}.

(** Every F-symbol is stored; the one of [(1,1,1,1,1,1)] is zero. *)
Definition fvars (b : list nat) : gmap (nat * nat * nat * nat * nat * nat) Z :=
  list_to_map
    ((λ t, match t with
           | [a; b; c; d; x; y] =>
               ((a, b, c, d, x, y),
                if bool_decide (t = [1; 1; 1; 1; 1; 1]%nat) then 0 else 1)
           | _ => ((0, 0, 0, 0, 0, 0)%nat, 0)
           end) <$> product b 6).

Definition factory (b : list nat)
    : @FMatrix nat _ _ Z (list nat) (list nat) (list nat) (list nat)
        (list nat) := {|
  FR := ring b;
  _poly_ring_zero := 0;
  _fvars := fvars b;
  solved := [];
  _ks := [];
  _var_degs := [];
  _nnz := [];
  _kp := [];
|}.

#[export] Instance methods : @FMatrixMethods nat _ _ Z (list nat) (list nat)
                       (list nat) (list nat) (list nat) (list nat) := {|
  get_known_nonz := λ f, solved f;
  get_known_vals := λ f, _ks f;
|}.

#[export] Instance unmodelled
    : @Unmodelled nat _ _ Z (list nat) Z (list nat) (list nat) (list nat)
        (list nat) (list nat) := {|
  compute_gb := λ f _ w, Ret (PyNone, f, w);
  get_appropriate_number_field := λ f _ w, Ret (PyObject, f, w);
  call_product := λ _ _ _, Raise TypeError;
  call_Ideal := λ _ _ _, Raise TypeError;
  call_PolynomialRing := λ _ _ _, Raise TypeError;
  call_number_field_elements_from_algebraics := λ _ _ _, Raise TypeError;
  ill_shaped := λ _ _ _ _, Raise TypeError;
  runtime_attrs := {[ "__name__" := λ _ _ _, Raise TypeError;
                      "__doc__" := λ _ _ _, Raise TypeError ]};
|}.

(** Iteration in the order of the insertions, one of the orders that a
    hash table can give: an entry is ranked by its first position in the
    history. *)
#[export] Instance insertion_order : @SetOrder (list nat) Z := {|
  set_slot := λ history r,
    default (length history) (fst <$> list_find (r =.) history);
|}.

(** The fusion ring of [Z/2] on the labels 0 and 1: [i * j = i + j mod 2],
    with its one stored F-symbol equal to 1 and trivial R-matrix. *)
Definition z2_ring : @FusionRing nat Z := {|
  Nk_ij := λ i j k,
    if bool_decide ((i < 2)%nat ∧ (j < 2)%nat ∧ ((i + j) mod 2)%nat = k)
    then 1 else 0;
  one := 0%nat;
  basis := [0; 1]%nat;
  r_matrix := λ _ _ _, 1;
|}.

Definition z2_factory
    : @FMatrix nat _ _ Z (list nat) (list nat) (list nat) (list nat)
        (list nat) := {|
  FR := z2_ring;
  _poly_ring_zero := 0;
  _fvars := {[ (1, 1, 1, 1, 0, 0)%nat := 1 ]};
  solved := [];
  _ks := [];
  _var_degs := [];
  _nnz := [];
  _kp := [];
|}.

Definition w0 : @worker (list nat) Z :=
  {| worker_results := []; stdout := [] |}.

(** The nonuple [(1,1,1,1,1,1,1,1,1)]. *)
Definition ones : list nat := [1; 1; 1; 1; 1; 1; 1; 1; 1]%nat.

End Toy.

(** ** Failure modes and tables *)

(** [m] returns, or raises an exception that satisfies [Q]; its behaviour is
    defined. *)
Definition fails_only {T} (Q : exn → Prop) (m : outcome T) : Prop :=
  match m with
  | Ret _ => True
  | Raise e => Q e
  | Undefined => False
  end.

(** The table [_fvars] has an entry for every sextuple of basis elements. *)
Definition fvars_complete {A} `{Countable A} {P Solved KS VarDegs NNZ KP}
    (factory : @FMatrix A _ _ P Solved KS VarDegs NNZ KP) : Prop :=
  ∀ a b c d x y,
    a ∈ basis (FR factory) → b ∈ basis (FR factory) →
    c ∈ basis (FR factory) → d ∈ basis (FR factory) →
    x ∈ basis (FR factory) → y ∈ basis (FR factory) →
    is_Some (_fvars factory !! (a, b, c, d, x, y)).

(** ** Python containers of [compute_gb] *)

(** A [dict], as the sequence of its items in insertion order.
    [d[k] = v] replaces the value of a key that is present, in place, and
    adds a new key at the end. *)
Fixpoint dict_setitem {Kd V} `{EqDecision Kd} (k : Kd) (v : V)
    (d : list (Kd * V)) : list (Kd * V) :=
  match d with
  | [] => [(k, v)]
  | kv :: d' =>
      if decide (kv.1 = k) then (k, v) :: d' else kv :: dict_setitem k v d'
  end.

(** [d.get(k)] *)
Fixpoint dict_getitem {Kd V} `{EqDecision Kd} (k : Kd) (d : list (Kd * V))
    : option V :=
  match d with
  | [] => None
  | kv :: d' => if decide (kv.1 = k) then Some kv.2 else dict_getitem k d'
  end.

(** [enumerate(l)] with a Python counter. *)
Definition enumerate {X} (l : list X) : list (nat * X) := imap pair l.

(** [sorted(set(l))] on variable indices. *)
Definition sorted_set (l : list nat) : list nat :=
  merge_sort (≤)%nat (elements (list_to_set l : gset nat)).

(** ** The local basis solver *)

Module Groebner.
Section Groebner.
Context {A : Type} `{Countable A}.
Context {P Mon K Solved KS VarDegs NNZ KP : Type}.
(** Fields, polynomial rings, their elements, and term orders of Sage. *)
Context {Fld Ring Poly Order : Type}.

Abbreviation FMatrix := (@FMatrix A _ _ P Solved KS VarDegs NNZ KP).
Abbreviation worker := (@worker Mon K).

(** What [compute_gb] calls: functions of [poly_tup_engine], the
    constructors of Sage and methods of the factory.  Variables are named
    by their index. *)
Class GroebnerEngine := {
  variables : list (Mon * K) → list nat;
  resize : list (Mon * K) → list (nat * nat) → nat → list (Mon * K);
  tup_to_poly : list (Mon * K) → Ring → Poly;
  poly_to_tup : Poly → list (Mon * K);
  field : FMatrix → Fld;
  PolynomialRing : Fld → nat → string → Order → Ring;
  sorted_polys : list Poly → list Poly;
  groebner_basis : list Poly → list Poly;
  ngens : FMatrix → nat;
}.
Context `{GroebnerEngine}.

(** [sorted_vars]: the variables of the batch, without repetition, in
    increasing order. *)
Definition sorted_vars (eqns : list (list (Mon * K))) : list nat :=
  sorted_set (eq_tup ← eqns; variables eq_tup).

(** [idx_map], after the loop [for new, old in enumerate(sorted_vars)]. *)
Definition idx_map (eqns : list (list (Mon * K))) : list (nat * nat) :=
  foldl (λ d it, dict_setitem it.2 it.1 d) [] (enumerate (sorted_vars eqns)).

(** [inv_idx_map], after the loop [for k, v in idx_map.items()]. *)
Definition inv_idx_map (eqns : list (list (Mon * K))) : list (nat * nat) :=
  foldl (λ d kv, dict_setitem kv.2 kv.1 d) [] (idx_map eqns).

(** The Groebner basis that the external solver returns for the batch. *)
Definition gb (factory : FMatrix) (eqns : list (list (Mon * K)))
    (term_order : Order) : list Poly :=
  let R := PolynomialRing (field factory) (length (sorted_vars eqns)) "a"
             term_order in
  let nvars := length (sorted_vars eqns) in
  let polys :=
    (λ eq_tup, tup_to_poly (resize eq_tup (idx_map eqns) nvars) R) <$> eqns in
  groebner_basis (sorted_polys polys).

Definition compute_gb (factory : FMatrix)
    (args : list (list (Mon * K)) * Order) (w : worker) : worker :=
  let '(eqns, term_order) := args in
  let nvars := ngens factory in
  foldl (λ w p,
           append (Eqn (resize (poly_to_tup p) (inv_idx_map eqns) nvars)) w)
    w (gb factory eqns term_order).

End Groebner.
End Groebner.

(** An instance on dense exponent vectors, for evaluation; its solver
    returns the polynomials it is given. *)
Module ToyGroebner.

(** The positions of the nonzero exponents. *)
Definition support (m : list nat) : list nat :=
  (imap (λ i e, if decide (e = 0%nat) then [] else [i]) m) ≫= id.

(** The exponent vector of length [nvars] with the exponents of [m] at the
    positions that [idx_map] gives. *)
Definition remap (idx_map : list (nat * nat)) (nvars : nat) (m : list nat)
    : list nat :=
  foldl (λ v ie, match dict_getitem ie.1 idx_map with
                 | Some j => <[j := ie.2]> v
                 | None => v
                 end)
    (replicate nvars 0%nat)
    (filter (λ ie, ie.2 ≠ 0%nat) (imap pair m)).

#[export] Instance engine
    : @Groebner.GroebnerEngine nat _ _ Z (list nat) Z (list nat) (list nat)
        (list nat) (list nat) (list nat) unit nat (list (list nat * Z))
        string := {|
  Groebner.variables := λ t, mc ← t; support mc.1;
  Groebner.resize := λ t idx_map nvars,
    (λ mc : list nat * Z, (remap idx_map nvars mc.1, mc.2)) <$> t;
  Groebner.tup_to_poly := λ t _, t;
  Groebner.poly_to_tup := λ p, p;
  Groebner.field := λ _, ();
  Groebner.PolynomialRing := λ _ n _ _, n;
  Groebner.sorted_polys := λ ps, ps;
  Groebner.groebner_basis := λ ps, ps;
  Groebner.ngens := λ _, 4%nat;
|}.

(** [x1^2 - 4] and [5 x1 x3], in four variables. *)
Definition batch : list (list (list nat * Z)) :=
  [ [([0; 2; 0; 0]%nat, 1); ([0; 0; 0; 0]%nat, -4)];
    [([0; 1; 0; 1]%nat, 5)] ].

End ToyGroebner.

(** Inputs at the edges of the verification pass and of the loops. *)
Module ToyEdge.

(** A worker that already holds a result. *)
Definition w7 : @worker (list nat) Z := append (Eqn [([], 7)]) Toy.w0.

(** The basis [[1]] with an F-symbol too large for a C [float]: both sides
    of the pentagon of [(1,...,1)] are infinite. *)
Definition overflowing
    : @FMatrix nat _ _ Z (list nat) (list nat) (list nat) (list nat)
        (list nat) :=
  set_fvars {[ (1, 1, 1, 1, 1, 1)%nat := 2 ^ 200 ]} (Toy.factory [1%nat]).

(** F-symbols for which the left side of the pentagon of
    [(1,1,1,1,1,1,1,1,2)] is infinite and the right side is zero. *)
Definition one_sided
    : @FMatrix nat _ _ Z (list nat) (list nat) (list nat) (list nat)
        (list nat) :=
  set_fvars {[ (1, 1, 1, 1, 1, 1)%nat := 0;
               (1, 1, 1, 1, 1, 2)%nat := 2 ^ 200;
               (1, 1, 2, 1, 1, 1)%nat := 2 ^ 200 ]} (Toy.factory [1%nat]).

(** The factory of [Toy] with an empty table. *)
Definition no_table
    : @FMatrix nat _ _ Z (list nat) (list nat) (list nat) (list nat)
        (list nat) :=
  set_fvars ∅ (Toy.factory [0; 1]%nat).

(** A process that holds the factory of [Z/2] at the handle 7. *)
Definition proc7 :=
  {| memory := {[ 7 := Toy.z2_factory ]}; globals := Toy.w0 |}.

End ToyEdge.

(** * Properties *)

(** ** Loops *)

Section Loops.
Context {X St : Type}.
Implicit Types (xs : list X) (s : St).

Lemma for_each_app (body : X → St → outcome St) xs ys s :
  for_each body (xs ++ ys) s = s' ← for_each body xs s; for_each body ys s'.
Proof.
  revert s. induction xs as [|x xs IH]; intros s; simpl; [reflexivity|].
  destruct (body x s); simpl; auto.
Qed.

(** A loop that tests each item and works on those that pass is the loop
    of the work over the items that pass. *)
Lemma for_each_filter (test : X → outcome bool) (gen : X → St → outcome St)
    xs s :
  (∀ x, x ∈ xs → ∃ b, test x = Ret b) →
  for_each (λ x s, t ← test x; if t : bool then gen x s else Ret s) xs s
  = for_each gen (filter (λ x, test x = Ret true) xs) s.
Proof.
  revert s. induction xs as [|x xs IH]; intros s Hdef; [reflexivity|].
  destruct (Hdef x) as [b Hb]; [left|].
  assert (Hxs : ∀ y, y ∈ xs → ∃ b, test y = Ret b)
    by (intros y Hy; apply Hdef; right; exact Hy).
  cbn [for_each]. rewrite Hb. destruct b; simpl.
  - rewrite filter_cons_True by exact Hb. cbn [for_each].
    destruct (gen x s); simpl; auto.
  - rewrite filter_cons_False by (rewrite Hb; discriminate). auto.
Qed.

(** A loop that returns has stepped through every item. *)
Lemma for_each_steps_returns (body : X → St → outcome St) xs s :
  returns (for_each body xs s) → for_each_steps body xs s = xs.
Proof.
  revert s. induction xs as [|x xs IH]; intros s [s' Hs]; [reflexivity|].
  simpl in *. destruct (body x s) as [s1| |]; simpl in Hs; try discriminate.
  f_equal. apply IH. exists s'. exact Hs.
Qed.

Lemma for_each_returns (body : X → St → outcome St) xs s :
  (∀ x s, x ∈ xs → returns (body x s)) → returns (for_each body xs s).
Proof.
  revert s. induction xs as [|x xs IH]; intros s Hb; [by eexists|].
  simpl. destruct (Hb x s) as [s' Hs']; [left|]. rewrite Hs'. simpl.
  apply IH. intros y s0 Hy. apply Hb. right. exact Hy.
Qed.

Lemma enumerate_ulong_snd (start : Z) xs :
  (enumerate_ulong start xs).*2 = xs.
Proof.
  revert start. induction xs as [|x xs IH]; intros start; [reflexivity|].
  simpl. f_equal. apply IH.
Qed.

(** Below [2^64] positions the counter holds the position. *)
Lemma enumerate_ulong_fst (start : Z) xs :
  0 ≤ start → start + Z.of_nat (length xs) ≤ ULONG_MOD →
  (enumerate_ulong start xs).*1 = seqZ start (Z.of_nat (length xs)).
Proof.
  revert start. induction xs as [|x xs IH]; intros start Hs Hl.
  - reflexivity.
  - cbn [enumerate_ulong fmap list_fmap fst length].
    rewrite seqZ_cons by lia. f_equal.
    replace (Z.pred (Z.of_nat (S (length xs)))) with (Z.of_nat (length xs))
      by lia.
    destruct xs as [|x' xs]; [reflexivity|].
    cbn [length] in Hl. unfold wrap_ulong.
    rewrite Z.mod_small by lia.
    replace (Z.succ start) with (start + 1) by lia.
    apply IH; cbn [length]; lia.
Qed.

Lemma enumerate_ulong_lookup (start : Z) xs i x :
  0 ≤ start → start + Z.of_nat (length xs) ≤ ULONG_MOD →
  (i, x) ∈ enumerate_ulong start xs →
  start ≤ i ∧ xs !! Z.to_nat (i - start) = Some x.
Proof.
  revert start. induction xs as [|y xs IH]; intros start Hs Hl Hin.
  - inversion Hin.
  - cbn [enumerate_ulong length] in *.
    apply elem_of_cons in Hin as [[= -> ->]|Hin].
    + split; [lia|]. by rewrite Z.sub_diag.
    + destruct xs as [|y' xs]; [inversion Hin|].
      cbn [length] in Hl. unfold wrap_ulong in Hin.
      rewrite Z.mod_small in Hin by lia.
      apply IH in Hin as [Hle Hlk]; cbn [length]; [|lia..].
      split; [lia|].
      replace (Z.to_nat (i - start)) with (S (Z.to_nat (i - (start + 1))))
        by lia.
      exact Hlk.
Qed.

(** In general the counter is the position modulo [2^64]. *)
Lemma enumerate_ulong_lookup_counter (start : Z) xs (n : nat) :
  0 ≤ start < ULONG_MOD →
  enumerate_ulong start xs !! n
  = (λ x, (wrap_ulong (start + Z.of_nat n), x)) <$> xs !! n.
Proof.
  revert start n. induction xs as [|y xs IH]; intros start n Hs.
  - by rewrite !lookup_nil.
  - destruct n as [|n]; cbn [enumerate_ulong lookup list_lookup fmap option_fmap
                             option_map].
    + unfold wrap_ulong. rewrite Z.add_0_r, Z.mod_small by lia. reflexivity.
    + change (enumerate_ulong (wrap_ulong (start + 1)) xs !! n
              = (λ x, (wrap_ulong (start + Z.of_nat (S n)), x)) <$> xs !! n).
      rewrite IH by (apply Z.mod_pos_bound; by vm_compute).
      unfold wrap_ulong. rewrite Zplus_mod_idemp_l.
      by replace (start + 1 + Z.of_nat n) with (start + Z.of_nat (S n)) by lia.
Qed.

Lemma strided_lookup (test : Z → outcome bool) xs i x :
  Z.of_nat (length xs) ≤ ULONG_MOD →
  (i, x) ∈ strided test xs → xs !! Z.to_nat i = Some x.
Proof.
  intros Hl [_ Hin]%list_elem_of_filter.
  apply enumerate_ulong_lookup in Hin as [_ Hlk]; [|lia..].
  by rewrite Z.sub_0_r in Hlk.
Qed.

Lemma strided_fst (test : Z → outcome bool) xs :
  Z.of_nat (length xs) ≤ ULONG_MOD →
  (strided test xs).*1
  = filter (λ i, test i = Ret true) (seqZ 0 (Z.of_nat (length xs))).
Proof.
  intros Hl. unfold strided.
  rewrite <- (enumerate_ulong_fst 0 xs) by lia.
  induction (enumerate_ulong 0 xs) as [|it l IH]; [reflexivity|].
  rewrite fmap_cons. destruct (decide (test it.1 = Ret true)) as [Ht|Ht].
  - rewrite !filter_cons_True by exact Ht. rewrite fmap_cons. by f_equal.
  - rewrite !filter_cons_False by exact Ht. exact IH.
Qed.

End Loops.

(** ** The lexicographic enumeration *)

Lemma lookup_bind_blocks {X Y} (f : X → list Y) (l : list X) (m i : nat) :
  (∀ x, x ∈ l → length (f x) = m) → (0 < m)%nat →
  (l ≫= f) !! i = (x ← l !! (i / m)%nat; f x !! (i mod m)%nat).
Proof.
  intros Hlen Hm. revert i. induction l as [|a l IH]; intros i.
  - reflexivity.
  - rewrite bind_cons.
    assert (Ha : length (f a) = m) by (apply Hlen; left).
    destruct (decide (i < m)%nat) as [Hi|Hi].
    + rewrite lookup_app_l by lia.
      by rewrite Nat.div_small, Nat.mod_small by lia.
    + rewrite lookup_app_r by lia. rewrite Ha.
      rewrite IH by (intros x Hx; apply Hlen; by right).
      assert (Hdiv : (i / m = S ((i - m) / m))%nat).
      { replace i with ((i - m) + 1 * m)%nat at 1 by lia.
        rewrite Nat.div_add by lia. lia. }
      assert (Hmod : (i mod m = (i - m) mod m)%nat).
      { replace i with ((i - m) + 1 * m)%nat at 1 by lia.
        apply Nat.Div0.mod_add. }
      by rewrite Hdiv, Hmod.
Qed.

Lemma length_bind_blocks {X Y} (f : X → list Y) (l : list X) (m : nat) :
  (∀ x, length (f x) = m) → length (l ≫= f) = (length l * m)%nat.
Proof.
  intros Hlen. induction l as [|a l IH]; [reflexivity|].
  rewrite bind_cons, length_app, Hlen, IH. reflexivity.
Qed.

Lemma length_product {X} (xs : list X) (r : nat) :
  length (product xs r) = (length xs ^ r)%nat.
Proof.
  induction r as [|r IH]; [reflexivity|].
  cbn [product]. rewrite (length_bind_blocks _ _ (length xs ^ r)).
  - by rewrite Nat.pow_succ_r'.
  - intros x. by rewrite length_fmap.
Qed.

(** The tuple at a position of [itertools.product] is the tuple of the
    digits of the position. *)
Lemma product_lookup {X} (xs : list X) (r i : nat) :
  product xs r !! i = index_tuple xs r i.
Proof.
  revert i. induction r as [|r IH]; intros i.
  - destruct i; reflexivity.
  - cbn [product index_tuple].
    destruct xs as [|x0 xs]; [by rewrite lookup_nil|].
    rewrite (lookup_bind_blocks _ _ (length (x0 :: xs) ^ r)).
    + destruct (_ !! (i / _)%nat) as [x|]; [|reflexivity].
      cbn [mbind option_bind]. rewrite list_lookup_fmap, IH.
      by destruct (index_tuple _ _ _).
    + intros x _. by rewrite length_fmap, length_product.
    + apply Nat.neq_0_lt_0, Nat.pow_nonzero. discriminate.
Qed.

(** ** The test of the verification pass *)

(** A deviation that the default tolerance lets through is a number other
    than zero, so that equality of recorded deviations is that of their
    representations. *)
Lemma recorded_deviation_is_a_number (diff : spec_float) :
  exceeds tol_default diff = true →
  diff ≠ S754_nan ∧ ∀ s, diff ≠ S754_zero s.
Proof.
  intros Hex. destruct diff as [s|s| |s m e].
  - destruct s; vm_compute in Hex; discriminate Hex.
  - split; [discriminate|intros s'; discriminate].
  - vm_compute in Hex. discriminate Hex.
  - split; [discriminate|intros s'; discriminate].
Qed.

Lemma pos_compare_lt_antisym (p q : positive) :
  CompOpp (Pos.compare_cont Eq p q) = Pos.compare_cont Eq q p.
Proof. change (CompOpp (p ?= q)%positive = (q ?= p)%positive).
  symmetry. apply Pos.compare_antisym. Qed.

(** [diff > tol or diff < -tol] says that [|diff| > tol], for all values of
    the two C [float]s, not-a-number included. *)
Lemma exceeds_abs (tol diff : spec_float) :
  exceeds tol diff = SFltb tol (SFabs diff).
Proof.
  unfold exceeds, SFltb.
  destruct tol as [st|st| |st mt et], diff as [sd|sd| |sd md ed];
    try destruct st; try destruct sd; cbn; try reflexivity.
  - apply orb_true_r.
  - rewrite (Z.compare_antisym ed et).
    destruct (ed ?= et); cbn; try reflexivity.
    rewrite <- (pos_compare_lt_antisym md mt).
    destruct (Pos.compare_cont Eq md mt); reflexivity.
  - apply orb_false_r.
Qed.

(** ** The partition of the positions, as specified *)

Lemma elem_of_assign (total_size worker_id worker_count i : Z) :
  i ∈ assign total_size worker_id worker_count
  ↔ 0 ≤ i < total_size ∧ i mod worker_count = worker_id.
Proof.
  unfold assign. rewrite list_elem_of_filter, elem_of_seqZ. lia.
Qed.

Lemma seqZ_increasing (m n : Z) : StronglySorted Z.lt (seqZ m n).
Proof.
  destruct (decide (n ≤ 0)) as [Hn|Hn]; [rewrite seqZ_nil by lia; constructor|].
  rewrite <- (Z2Nat.id n) by lia. generalize (Z.to_nat n) as k. clear Hn n.
  intros k. revert m. induction k as [|k IH]; intros m.
  - constructor.
  - rewrite seqZ_cons by lia.
    replace (Z.pred (Z.of_nat (S k))) with (Z.of_nat k) by lia.
    constructor; [apply IH|].
    apply Forall_forall. intros j Hj%elem_of_seqZ. lia.
Qed.

Lemma filter_increasing (Q : Z → Prop) `{∀ i, Decision (Q i)} (l : list Z) :
  StronglySorted Z.lt l → StronglySorted Z.lt (filter Q l).
Proof.
  induction 1 as [|i l Hl IH Hi]; [constructor|].
  destruct (decide (Q i)).
  - rewrite filter_cons_True by assumption. constructor; [exact IH|].
    apply Forall_forall. intros j [_ Hj]%list_elem_of_filter.
    rewrite Forall_forall in Hi. auto.
  - rewrite filter_cons_False by assumption. exact IH.
Qed.

Lemma assign_increasing (total_size worker_id worker_count : Z) :
  StronglySorted Z.lt (assign total_size worker_id worker_count).
Proof. apply filter_increasing, seqZ_increasing. Qed.

Lemma assign_NoDup (total_size worker_id worker_count : Z) :
  NoDup (assign total_size worker_id worker_count).
Proof. apply NoDup_filter, NoDup_seqZ. Qed.

(** The sequences of the workers [0 .. worker_count-1], one after the other,
    list every position of [[0, total_size)] exactly once. *)
Lemma assign_partition (total_size worker_count : Z) :
  0 < worker_count →
  (w ← seqZ 0 worker_count; assign total_size w worker_count)
  ≡ₚ seqZ 0 total_size.
Proof.
  intros Hw. apply NoDup_Permutation.
  - apply NoDup_bind; [|intros; apply assign_NoDup|apply NoDup_seqZ].
    intros w1 w2 i _ _ [_ <-]%elem_of_assign [_ <-]%elem_of_assign.
    reflexivity.
  - apply NoDup_seqZ.
  - intros i. rewrite list_elem_of_bind, elem_of_seqZ. split.
    + intros (w & [Hi _]%elem_of_assign & _). lia.
    + intros Hi. exists (i mod worker_count). split.
      * apply elem_of_assign. split; [lia|reflexivity].
      * apply elem_of_seqZ. pose proof (Z.mod_pos_bound i worker_count). lia.
Qed.

Section Properties.
Context {A : Type} `{Countable A}.
Context {P : Type} `{RingOps P}.
Context {Mon K : Type} `{Countable Mon} `{Countable K}.
Context {Solved KS VarDegs NNZ KP KV : Type}.
Context `{!@PolyTupEngine P Mon K KS VarDegs NNZ KP KV}.
Context `{!@FMatrixMethods A _ _ P Solved KS VarDegs NNZ KP KV}.
Context `{!@FloatCoercion P}.
Context `{!@Unmodelled A _ _ P Mon K Solved KS VarDegs NNZ KP}.
Context `{!@SetOrder Mon K}.

Abbreviation FMatrix := (@FMatrix A _ _ P Solved KS VarDegs NNZ KP).
Abbreviation worker := (@worker Mon K).

(** ** The structure-constant lookup *)

Lemma fmat_side_condition (factory : FMatrix) a b c d x y :
  Nk_ij (FR factory) a b x = 0 ∨ Nk_ij (FR factory) x c d = 0
  ∨ Nk_ij (FR factory) b c y = 0 ∨ Nk_ij (FR factory) a y d = 0 →
  _fmat factory a b c d x y = Ret (PyInt 0).
Proof.
  intros Hz. unfold _fmat; cbv zeta.
  destruct Hz as [Hz | [Hz | [Hz | Hz]]]; rewrite Hz;
    repeat case_bool_decide; simpl; try reflexivity; congruence.
Qed.

Lemma fmat_no_side_condition (factory : FMatrix) a b c d x y :
  Nk_ij (FR factory) a b x ≠ 0 → Nk_ij (FR factory) x c d ≠ 0 →
  Nk_ij (FR factory) b c y ≠ 0 → Nk_ij (FR factory) a y d ≠ 0 →
  _fmat factory a b c d x y =
    if bool_decide (a = one (FR factory)) then
      Ret (PyInt (if bool_decide (x = b ∧ y = d) then 1 else 0))
    else if bool_decide (b = one (FR factory)) then
      Ret (PyInt (if bool_decide (x = a ∧ y = c) then 1 else 0))
    else if bool_decide (c = one (FR factory)) then
      Ret (PyInt (if bool_decide (x = d ∧ y = b) then 1 else 0))
    else fvars_getitem factory (a, b, c, d, x, y).
Proof.
  intros Hn1 Hn2 Hn3 Hn4. unfold _fmat; cbv zeta.
  rewrite !bool_decide_eq_false_2 by assumption. cbn [orb].
  repeat case_bool_decide; simpl; try reflexivity; intuition congruence.
Qed.

(** When the identity of the fusion ring is a unit for the multiplicities
    ([N(1,j,k)] and [N(i,1,k)] vanish unless the other two labels agree), the
    three identity patterns never disagree: each of them that applies gives
    the value that [_fmat] returns. *)
Lemma fmat_identity_patterns (factory : FMatrix) a b c d x y :
  let N := Nk_ij (FR factory) in
  let e := one (FR factory) in
  (∀ j k, N e j k ≠ 0 → j = k) → (∀ i k, N i e k ≠ 0 → i = k) →
  N a b x ≠ 0 → N x c d ≠ 0 → N b c y ≠ 0 → N a y d ≠ 0 →
  (a = e → _fmat factory a b c d x y
           = Ret (PyInt (if bool_decide (x = b ∧ y = d) then 1 else 0)))
  ∧ (b = e → _fmat factory a b c d x y
             = Ret (PyInt (if bool_decide (x = a ∧ y = c) then 1 else 0)))
  ∧ (c = e → _fmat factory a b c d x y
             = Ret (PyInt (if bool_decide (x = d ∧ y = b) then 1 else 0))).
Proof.
  intros N e Hl Hr Hn1 Hn2 Hn3 Hn4.
  rewrite fmat_no_side_condition by assumption. fold e.
  split_and!; intros ->.
  - by rewrite bool_decide_eq_true_2.
  - apply Hr in Hn1 as <-. apply Hl in Hn3 as <-.
    case_bool_decide as Ha; [subst a|by rewrite bool_decide_eq_true_2].
    apply Hl in Hn4 as <-.
    by rewrite !bool_decide_eq_true_2.
  - apply Hr in Hn2 as <-. apply Hr in Hn3 as <-.
    case_bool_decide as Ha; [subst a|].
    { apply Hl in Hn1 as <-. apply Hl in Hn4.
      rewrite !bool_decide_eq_true_2; [reflexivity|split; congruence..]. }
    case_bool_decide as Hb; [subst b|by rewrite bool_decide_eq_true_2].
    assert (a = x) as <- by (by apply Hr).
    by rewrite !bool_decide_eq_true_2.
Qed.

(** C2. [_fmat] returns 0 as soon as one of the four fusion multiplicities
    is zero, whatever the other arguments; otherwise, when [a], then [b],
    then [c] is the identity of the fusion ring, it returns 1 exactly when
    the indices match the pattern of that argument and 0 otherwise; in all
    these cases the table [_fvars] is not consulted (any table gives the
    same answer); otherwise it returns the value stored for the 6-tuple.
    The patterns are tried in the order [a], [b], [c]; when the identity is
    a unit for the multiplicities the order is immaterial, each pattern
    whose argument is the identity giving the value returned. *)
Theorem fmat_three_tier (factory : FMatrix) (a b c d x y : A) :
  let N := Nk_ij (FR factory) in
  let e := one (FR factory) in
  (N a b x = 0 ∨ N x c d = 0 ∨ N b c y = 0 ∨ N a y d = 0 →
     ∀ tbl, _fmat (set_fvars tbl factory) a b c d x y = Ret (PyInt 0))
  ∧ (N a b x ≠ 0 → N x c d ≠ 0 → N b c y ≠ 0 → N a y d ≠ 0 →
       (a = e → ∀ tbl, _fmat (set_fvars tbl factory) a b c d x y =
          Ret (PyInt (if bool_decide (x = b ∧ y = d) then 1 else 0)))
       ∧ (a ≠ e → b = e → ∀ tbl, _fmat (set_fvars tbl factory) a b c d x y =
          Ret (PyInt (if bool_decide (x = a ∧ y = c) then 1 else 0)))
       ∧ (a ≠ e → b ≠ e → c = e →
          ∀ tbl, _fmat (set_fvars tbl factory) a b c d x y =
          Ret (PyInt (if bool_decide (x = d ∧ y = b) then 1 else 0)))
       ∧ (a ≠ e → b ≠ e → c ≠ e →
          ∀ tbl, _fmat (set_fvars tbl factory) a b c d x y =
            match tbl !! (a, b, c, d, x, y) with
            | Some v => Ret (Elt v)
            | None => Raise KeyError
            end))
  ∧ ((∀ j k, N e j k ≠ 0 → j = k) → (∀ i k, N i e k ≠ 0 → i = k) →
     N a b x ≠ 0 → N x c d ≠ 0 → N b c y ≠ 0 → N a y d ≠ 0 →
       (a = e → _fmat factory a b c d x y =
          Ret (PyInt (if bool_decide (x = b ∧ y = d) then 1 else 0)))
       ∧ (b = e → _fmat factory a b c d x y =
          Ret (PyInt (if bool_decide (x = a ∧ y = c) then 1 else 0)))
       ∧ (c = e → _fmat factory a b c d x y =
          Ret (PyInt (if bool_decide (x = d ∧ y = b) then 1 else 0)))).
Proof.
  intros N e. split_and!.
  - intros Hz tbl. apply fmat_side_condition. exact Hz.
  - intros Hn1 Hn2 Hn3 Hn4.
    assert (Hgen : ∀ tbl, _fmat (set_fvars tbl factory) a b c d x y = _)
      by (intros tbl; apply fmat_no_side_condition; assumption).
    cbn [FR set_fvars] in Hgen. fold e in Hgen.
    repeat split; intros; rewrite Hgen;
      repeat case_bool_decide; try reflexivity; congruence.
  - apply fmat_identity_patterns.
Qed.

(** ** The index partitioner *)

Lemma py_stride_test_nonzero (i n_proc child_id : Z) :
  n_proc ≠ 0 →
  py_stride_test i n_proc child_id
  = Ret (bool_decide (i mod n_proc = child_id)).
Proof. intros Hn. unfold py_stride_test. by rewrite bool_decide_eq_false_2. Qed.

Lemma c_stride_test_in_range (i n_proc child_id : Z) :
  0 < n_proc < ULONG_MOD → 0 ≤ child_id < ULONG_MOD →
  c_stride_test i n_proc child_id
  = Ret (bool_decide (i mod n_proc = child_id)).
Proof.
  intros Hn Hc. unfold c_stride_test, wrap_ulong; cbv zeta.
  rewrite (Z.mod_small n_proc), (Z.mod_small child_id) by lia.
  by rewrite bool_decide_eq_false_2 by lia.
Qed.

Lemma filter_stride_test (test : Z → outcome bool) (n_proc child_id : Z)
    (l : list Z) :
  (∀ i, test i = Ret (bool_decide (i mod n_proc = child_id))) →
  filter (λ i, test i = Ret true) l
  = filter (λ i, i mod n_proc = child_id) l.
Proof.
  intros Ht. apply list_filter_iff. intros i. rewrite Ht.
  case_bool_decide; split; intros; congruence.
Qed.

(** The loop of [get_reduced_hexagons] runs the generator on the items of
    its stride, in order. *)
Lemma hexagon_loop_assigned (factory : FMatrix) (child_id n_proc : Z) w :
  n_proc ≠ 0 →
  get_reduced_hexagons factory (child_id, n_proc) w
  = for_each (λ it, hexagon_generate factory it.2)
      (hexagon_assigned factory child_id n_proc) w.
Proof.
  intros Hn. unfold get_reduced_hexagons, hexagon_assigned, strided.
  rewrite <- for_each_filter; [reflexivity|].
  intros it _. rewrite py_stride_test_nonzero by exact Hn. by eexists.
Qed.

Lemma pentagon_loop_assigned (factory : FMatrix) (child_id n_proc : Z)
    prune w :
  INT_MIN ≤ child_id ≤ INT_MAX → 0 < n_proc ≤ INT_MAX →
  get_reduced_pentagons factory (child_id, n_proc) prune w
  = for_each (λ it, pentagon_generate factory
                      (default get_reduced_pentagons_prune_default prune)
                      it.2)
      (pentagon_assigned factory child_id n_proc) w.
Proof.
  intros Hc Hn. unfold get_reduced_pentagons, pentagon_assigned, strided.
  cbn [fst snd]. unfold as_int.
  rewrite !bool_decide_eq_true_2 by (unfold INT_MIN, INT_MAX in *; lia).
  cbn [mbind outcome_bind].
  rewrite <- for_each_filter; [reflexivity|].
  intros it _. unfold c_stride_test; cbv zeta.
  case_bool_decide; [|by eexists].
  exfalso. unfold wrap_ulong, ULONG_MOD, INT_MAX in *.
  rewrite (Z.mod_small n_proc) in * by lia. lia.
Qed.

(** C1 (amended). For a positive worker count, the sequences
    [assign total w n_proc] of the workers [w = 0 .. n_proc-1] are
    increasing, pairwise disjoint, and together list every position of
    [[0, total)] exactly once.  When the enumeration has at most [2^64]
    tuples, the hexagon loop of worker [child_id] runs its generator on
    exactly the positions of [assign], in that order, with the tuple found
    at that position of [product(basis, repeat=6)]; the pentagon loop does
    the same on [product(basis, repeat=9)] when moreover [n_proc] fits a C
    [int] and [0 <= child_id < n_proc]. *)
Theorem partition_complete (factory : FMatrix) (n_proc : Z) :
  0 < n_proc →
  let hexagons := product (basis (FR factory)) 6 in
  let pentagons := product (basis (FR factory)) 9 in
  (∀ total_size, 0 < total_size →
     (∀ w, StronglySorted Z.lt (assign total_size w n_proc))
     ∧ (∀ w1 w2 i, i ∈ assign total_size w1 n_proc →
                   i ∈ assign total_size w2 n_proc → w1 = w2)
     ∧ (w ← seqZ 0 n_proc; assign total_size w n_proc)
       ≡ₚ seqZ 0 total_size)
  ∧ (Z.of_nat (length hexagons) ≤ ULONG_MOD → ∀ child_id,
       (hexagon_assigned factory child_id n_proc).*1
         = assign (Z.of_nat (length hexagons)) child_id n_proc
       ∧ (∀ i t, (i, t) ∈ hexagon_assigned factory child_id n_proc →
                 hexagons !! Z.to_nat i = Some t)
       ∧ (∀ w, get_reduced_hexagons factory (child_id, n_proc) w
               = for_each (λ it, hexagon_generate factory it.2)
                   (hexagon_assigned factory child_id n_proc) w))
  ∧ (Z.of_nat (length pentagons) ≤ ULONG_MOD → n_proc ≤ INT_MAX →
     ∀ child_id, 0 ≤ child_id < n_proc →
       (pentagon_assigned factory child_id n_proc).*1
         = assign (Z.of_nat (length pentagons)) child_id n_proc
       ∧ (∀ i t, (i, t) ∈ pentagon_assigned factory child_id n_proc →
                 pentagons !! Z.to_nat i = Some t)
       ∧ (∀ prune w,
            get_reduced_pentagons factory (child_id, n_proc) prune w
            = for_each (λ it, pentagon_generate factory
                          (default get_reduced_pentagons_prune_default prune)
                          it.2)
                (pentagon_assigned factory child_id n_proc) w)).
Proof.
  intros Hn hexagons pentagons. split_and!.
  - intros total_size _. split_and!.
    + intros w. apply assign_increasing.
    + intros w1 w2 i [_ <-]%elem_of_assign [_ <-]%elem_of_assign.
      reflexivity.
    + by apply assign_partition.
  - intros Hlen child_id. split_and!.
    + unfold hexagon_assigned. rewrite strided_fst by exact Hlen.
      apply filter_stride_test. intros i.
      apply py_stride_test_nonzero. lia.
    + intros i t. by apply strided_lookup.
    + intros w. apply hexagon_loop_assigned. lia.
  - intros Hlen Hmax child_id Hc. split_and!.
    + unfold pentagon_assigned. rewrite strided_fst by exact Hlen.
      apply filter_stride_test. intros i.
      apply c_stride_test_in_range; unfold ULONG_MOD, INT_MAX in *; lia.
    + intros i t. by apply strided_lookup.
    + intros prune w. apply pentagon_loop_assigned;
        unfold INT_MIN, INT_MAX in *; lia.
Qed.

(** C4 (amended). A worker whose loop returns has stepped through every
    position [0 .. total-1] of the enumeration, whatever its [child_id]: the
    loop draws every tuple of [itertools.product] in turn and tests its
    position; only the generator is restricted to the stride.  The tuple
    bound at a position is the one the iterator yields at that step, all
    earlier tuples having been drawn before it; it is the tuple of the
    digits of the position, which the code never computes from the position
    itself. *)
Theorem workers_step_through_every_position (factory : FMatrix)
    (child_id n_proc : Z) (prune : bool) (w : worker) :
  let hexagons := product (basis (FR factory)) 6 in
  let pentagons := product (basis (FR factory)) 9 in
  (Z.of_nat (length hexagons) ≤ ULONG_MOD →
   returns (get_reduced_hexagons factory (child_id, n_proc) w) →
     (hexagon_steps factory child_id n_proc w).*1
       = seqZ 0 (Z.of_nat (length hexagons))
     ∧ (hexagon_steps factory child_id n_proc w).*2 = hexagons)
  ∧ (Z.of_nat (length pentagons) ≤ ULONG_MOD →
     returns (get_reduced_pentagons factory (child_id, n_proc)
                (Some prune) w) →
       (pentagon_steps factory prune child_id n_proc w).*1
         = seqZ 0 (Z.of_nat (length pentagons))
       ∧ (pentagon_steps factory prune child_id n_proc w).*2 = pentagons)
  ∧ (∀ i, hexagons !! i = index_tuple (basis (FR factory)) 6 i)
  ∧ (∀ i, pentagons !! i = index_tuple (basis (FR factory)) 9 i).
Proof.
  intros hexagons pentagons. split_and!; [| |intros i; apply product_lookup..].
  - intros Hlen Hret. unfold hexagon_steps.
    rewrite for_each_steps_returns by exact Hret.
    split; [apply enumerate_ulong_fst; lia|apply enumerate_ulong_snd].
  - intros Hlen Hret. unfold pentagon_steps.
    destruct Hret as [w' Hret].
    unfold get_reduced_pentagons, as_int in Hret.
    cbn [fst snd default id] in Hret.
    destruct (bool_decide (INT_MIN ≤ child_id ≤ INT_MAX));
      [|discriminate Hret].
    destruct (bool_decide (INT_MIN ≤ n_proc ≤ INT_MAX));
      [|discriminate Hret].
    cbn [mbind outcome_bind] in Hret.
    rewrite for_each_steps_returns by (exists w'; exact Hret).
    split; [apply enumerate_ulong_fst; lia|apply enumerate_ulong_snd].
Qed.

(** ** Pruning of pentagon equations *)

(** C3 (amended). Pruning is an option of the pentagon operation that is
    on when the caller says nothing: [get_reduced_pentagons] without
    [prune] behaves as with [prune=True], and hands that value to
    [feq_cy] (whose own default, off, is never used).  With pruning on, a
    pentagon whose left-hand side is zero is returned as the zero
    polynomial and adds nothing to the results. *)
Theorem pruning_is_on_by_default (factory : FMatrix) :
  (∀ mp_params w,
     get_reduced_pentagons factory mp_params None w
     = get_reduced_pentagons factory mp_params (Some true) w)
  ∧ (∀ a b c d e f g k l f0 f1 w,
       _fmat factory f c d e g l = Ret f0 →
       _fmat factory a b l e f k = Ret f1 →
       py_eq0 (py_mul f0 f1) = true →
       feq_cy factory [a; b; c; d; e; f; g; k; l] true
         = Ret (_poly_ring_zero factory)
       ∧ (r_is_zero (_poly_ring_zero factory) = true →
          pentagon_generate factory true [a; b; c; d; e; f; g; k; l] w
            = Ret w)).
Proof.
  split; [reflexivity|].
  intros a b c d e f g k l f0 f1 w Hf0 Hf1 Hz.
  assert (Hfeq : feq_cy factory [a; b; c; d; e; f; g; k; l] true
                 = Ret (_poly_ring_zero factory)).
  { unfold feq_cy. cbn [unpack9 mbind outcome_bind].
    rewrite Hf0. cbn [mbind outcome_bind]. rewrite Hf1.
    cbn [mbind outcome_bind]. by rewrite Hz. }
  split; [exact Hfeq|]. intros Hzero.
  unfold pentagon_generate. rewrite Hfeq. cbn [mbind outcome_bind].
  by rewrite Hzero.
Qed.

(** ** Update and reduce *)

(** C5. [update_reduce] first substitutes the known powers [_kp] into the
    equation; when the result fixes a square it appends its monic form,
    whatever generic reduction would give; only otherwise it appends the
    generic reduction by the known nonzero variables and known squares. *)
Theorem update_reduce_order (factory : FMatrix) (eq_tup : list (Mon * K))
    (w : worker) :
  let eq_dict := subs eq_tup (_kp factory) in
  (tup_fixes_sq eq_dict = true →
     update_reduce factory eq_tup w = append (Eqn (to_monic eq_dict)) w)
  ∧ (tup_fixes_sq eq_dict = false →
     update_reduce factory eq_tup w
     = append (Eqn (reduce_poly_dict eq_dict (_nnz factory) (_ks factory)))
         w).
Proof.
  intros eq_dict. unfold update_reduce. fold eq_dict.
  split; intros ->; reflexivity.
Qed.

(** ** The collector *)

Lemma elem_of_collect_eqns {Proc : Type} (proc : Proc) (w : worker) r :
  r ∈ (collect_eqns proc w).1 ↔ r ∈ worker_results w ∧ r ≠ Eqn [].
Proof.
  unfold collect_eqns, set_list. cbn [fst].
  rewrite merge_sort_Permutation.
  rewrite elem_of_elements, elem_of_difference, !elem_of_list_to_set.
  rewrite list_elem_of_singleton. reflexivity.
Qed.

Lemma NoDup_collect_eqns {Proc : Type} (proc : Proc) (w : worker) :
  NoDup (collect_eqns proc w).1.
Proof.
  unfold collect_eqns, set_list. cbn [fst].
  rewrite merge_sort_Permutation. apply NoDup_elements.
Qed.

(** C6. [collect_eqns] leaves [worker_results] empty and returns the
    entries it held except the empty tuple (the zero polynomial); the
    empty tuple is never returned.  A hexagon that evaluates to zero is
    not even appended by the generator loop. *)
Theorem collector_drains_and_discards_zero {Proc : Type} (proc : Proc)
    (w : worker) :
  worker_results (collect_eqns proc w).2 = []
  ∧ stdout (collect_eqns proc w).2 = stdout w
  ∧ (∀ r, r ∈ (collect_eqns proc w).1 ↔ r ∈ worker_results w ∧ r ≠ Eqn [])
  ∧ (Eqn [] ∉ (collect_eqns proc w).1)
  ∧ (∀ (factory : FMatrix) sextuple he,
       req_cy factory sextuple "left" = Ret he → py_truth he = false →
       hexagon_generate factory sextuple w = Ret w).
Proof.
  split_and!; [reflexivity|reflexivity| | |].
  - intros r. apply elem_of_collect_eqns.
  - intros [_ Hne]%elem_of_collect_eqns. by apply Hne.
  - intros factory sextuple he Hhe Hfalse. unfold hexagon_generate.
    rewrite Hhe. cbn [mbind outcome_bind]. by rewrite Hfalse.
Qed.

Lemma occurs_never {T} `{EqDecision T} (r : T) (l : list T) :
  r ∉ l → filter (r =.) l = [].
Proof.
  induction l as [|x l IH]; intros Hr; [reflexivity|].
  apply not_elem_of_cons in Hr as [Hrx Hr].
  rewrite filter_cons_False by exact Hrx. by apply IH.
Qed.

Lemma occurs_once {T} `{EqDecision T} (r : T) (l : list T) :
  NoDup l → r ∈ l → length (filter (r =.) l) = 1%nat.
Proof.
  induction l as [|x l IH]; intros Hnd Hr; [by apply elem_of_nil in Hr|].
  apply NoDup_cons in Hnd as [Hx Hnd].
  destruct (decide (r = x)) as [->|Hrx].
  - rewrite filter_cons_True by reflexivity.
    by rewrite occurs_never.
  - rewrite filter_cons_False by exact Hrx.
    apply elem_of_cons in Hr as [?|Hr]; [done|]. by apply IH.
Qed.

(** C10. The deduplication happens in [collect_eqns]: every entry of the
    buffer other than the empty tuple is in the returned list exactly
    once, however often the buffer holds it, and nothing else is in the
    list; so the list is without duplicates, and it is a rearrangement of
    the buffer with the empty tuple and the repetitions removed.  Neither
    the list nor the worker afterwards depends on [proc]. *)
Theorem collector_dedups_and_ignores_proc {Proc1 Proc2 : Type}
    (proc1 : Proc1) (proc2 : Proc2) (w : worker) :
  NoDup (collect_eqns proc1 w).1
  ∧ (∀ r, r ∈ (collect_eqns proc1 w).1
          ↔ r ∈ worker_results w ∧ r ≠ Eqn [])
  ∧ (∀ r, r ∈ worker_results w → r ≠ Eqn [] →
          length (filter (r =.) (collect_eqns proc1 w).1) = 1%nat)
  ∧ (collect_eqns proc1 w).1
    ≡ₚ remove_dups (filter (.≠ Eqn []) (worker_results w))
  ∧ collect_eqns proc1 w = collect_eqns proc2 w.
Proof.
  split_and!.
  - apply NoDup_collect_eqns.
  - intros r. apply elem_of_collect_eqns.
  - intros r Hin Hne.
    assert (Hr : r ∈ (collect_eqns proc1 w).1)
      by by apply elem_of_collect_eqns.
    by apply occurs_once; [apply NoDup_collect_eqns|].
  - apply NoDup_Permutation;
      [apply NoDup_collect_eqns|apply NoDup_remove_dups|].
    intros r. rewrite elem_of_collect_eqns, elem_of_remove_dups.
    rewrite list_elem_of_filter. tauto.
  - reflexivity.
Qed.

(** ** State broadcast *)

(** C7. [update_child_fmats] stores the four components of [data_tup] in
    [_fvars], [solved], [_ks] and [_var_degs]; it then sets [_nnz] to
    [get_known_nonz()] of the factory so written, and [_kp] to the known
    powers computed from the new [_var_degs] and the [get_known_vals()] of
    the factory after that; the fusion ring and the polynomial ring are as
    before. *)
Theorem broadcast_overwrites_and_recomputes (factory : FMatrix)
    (v0 : gmap (A * A * A * A * A * A) P) (v1 : Solved) (v2 : KS)
    (v3 : VarDegs) :
  let factory' := update_child_fmats factory (v0, v1, v2, v3) in
  let written :=
    {| FR := FR factory; _poly_ring_zero := _poly_ring_zero factory;
       _fvars := v0; solved := v1; _ks := v2; _var_degs := v3;
       _nnz := _nnz factory; _kp := _kp factory |} in
  _fvars factory' = v0 ∧ solved factory' = v1
  ∧ _ks factory' = v2 ∧ _var_degs factory' = v3
  ∧ _nnz factory' = get_known_nonz written
  ∧ _kp factory'
    = compute_known_powers v3
        (get_known_vals (set_nnz (get_known_nonz written) written))
  ∧ FR factory' = FR factory
  ∧ _poly_ring_zero factory' = _poly_ring_zero factory.
Proof. intros factory' written. split_and!; reflexivity. Qed.

(** ** The dispatcher *)

Lemma this_module_defs (name : string) (fn : callable) :
  list_to_map (M := gmap string callable) module_defs !! name = Some fn →
  this_module !! name = Some fn.
Proof. intros Hn. unfold this_module. by apply lookup_union_Some_l. Qed.


(** ** The verification pass *)

Lemma feq_verif_returns (factory : FMatrix) nonuple tol (w : worker) diff :
  feq_verif_diff factory nonuple = Ret diff →
  feq_verif factory nonuple tol w
  = Ret (if SFltb (default tol_default tol) (SFabs diff)
         then append (Diff diff) w else w).
Proof.
  intros Hd. unfold feq_verif. rewrite Hd. cbn [mbind outcome_bind].
  rewrite exceeds_abs. by destruct (SFltb _ _).
Qed.

Lemma pent_verify_body_returns (factory : FMatrix) child_id n_proc it
    (w : worker) :
  n_proc ≠ 0 → returns (feq_verif_diff factory it.2) →
  returns (pent_verify_body factory child_id n_proc it w).
Proof.
  intros Hn [diff Hd]. unfold pent_verify_body.
  rewrite py_stride_test_nonzero by exact Hn. cbn [mbind outcome_bind].
  destruct (bool_decide (it.1 mod n_proc = child_id)).
  - rewrite (feq_verif_returns _ _ _ _ diff) by exact Hd.
    cbn [mbind outcome_bind]. destruct (_ && _); by eexists.
  - cbn [mbind outcome_bind]. destruct (_ && _); by eexists.
Qed.

(** What the loop of [pent_verify] leaves in the buffer: the results held
    before, and then, for the items of the stride in their order, the
    deviations beyond the default tolerance; the deviation of every item
    of the stride has been evaluated. *)
Lemma pent_verify_loop_records (factory : FMatrix) (child_id n_proc : Z)
    (items : list (Z * list A)) (w w' : worker) :
  for_each (pent_verify_body factory child_id n_proc) items w = Ret w' →
  worker_results w'
  = worker_results w
    ++ deviations_beyond tol_default factory
         (filter (λ it, py_stride_test it.1 n_proc child_id = Ret true)
            items)
  ∧ ∀ it, it ∈ filter (λ it, py_stride_test it.1 n_proc child_id = Ret true)
                 items →
          returns (feq_verif_diff factory it.2).
Proof.
  revert w. induction items as [|it items IH]; intros w Hloop.
  - injection Hloop as <-. split; [by rewrite app_nil_r|].
    intros it Hit. by apply elem_of_nil in Hit.
  - cbn [for_each] in Hloop.
    destruct (pent_verify_body factory child_id n_proc it w)
      as [w1| |] eqn:Hbody; try discriminate Hloop.
    cbn [mbind outcome_bind] in Hloop.
    destruct (IH w1 Hloop) as [Hres Hret]. clear IH Hloop.
    unfold pent_verify_body in Hbody.
    destruct (py_stride_test it.1 n_proc child_id) as [[|]| |] eqn:Htest;
      try discriminate Hbody; cbn [mbind outcome_bind] in Hbody.
    + unfold feq_verif in Hbody.
      destruct (feq_verif_diff factory it.2) as [diff| |] eqn:Hdiff;
        try discriminate Hbody.
      cbn [mbind outcome_bind default] in Hbody.
      rewrite exceeds_abs in Hbody.
      rewrite filter_cons_True by exact Htest.
      unfold deviations_beyond in *. rewrite bind_cons, Hdiff.
      split.
      * rewrite Hres.
        destruct (SFltb tol_default (SFabs diff));
          cbn [mbind outcome_bind] in Hbody;
          destruct (_ && _); injection Hbody as <-;
          cbn [print append worker_results];
          by rewrite <- ?app_assoc.
      * intros it' [->|Hit]%elem_of_cons; [by eexists|by apply Hret].
    + rewrite filter_cons_False by (rewrite Htest; discriminate).
      split; [|exact Hret].
      rewrite Hres. destruct (_ && _); injection Hbody as <-; reflexivity.
Qed.

(** C9. Whenever the deviation [diff = lhs - rhs] of a pentagon has been
    evaluated, [feq_verif] returns, and it has appended [diff] to
    [worker_results] exactly when [|diff|] exceeds the tolerance (the C
    [float] nearest to [5e-8] when the caller gives none).  The same holds
    for each tuple of the stride in [pent_verify], which calls [feq_verif]
    without a tolerance; and [pent_verify] returns, whatever the
    deviations are, as long as they can all be evaluated and [n_proc] is
    not zero.  A pass that returns has evaluated the deviation of every
    tuple of its stride, and has appended to the results held before, in
    the order of the stride, exactly the deviations beyond the default
    tolerance; the stride is, up to [2^64] pentagons, the positions that
    the specification assigns to the worker, each with the tuple at that
    position. *)
Theorem verification_records_deviations (factory : FMatrix) :
  (∀ nonuple tol (w : worker) diff,
     feq_verif_diff factory nonuple = Ret diff →
     feq_verif factory nonuple tol w
     = Ret (if SFltb (default tol_default tol) (SFabs diff)
            then append (Diff diff) w else w))
  ∧ (∀ child_id n_proc it (w : worker) diff,
       py_stride_test it.1 n_proc child_id = Ret true →
       feq_verif_diff factory it.2 = Ret diff →
       ∃ w', pent_verify_body factory child_id n_proc it w = Ret w'
             ∧ worker_results w'
               = worker_results w
                 ++ (if SFltb tol_default (SFabs diff)
                     then [Diff diff] else []))
  ∧ (∀ child_id n_proc (w : worker),
       n_proc ≠ 0 →
       (∀ nonuple, nonuple ∈ product (basis (FR factory)) 9 →
                   returns (feq_verif_diff factory nonuple)) →
       returns (pent_verify factory (child_id, n_proc) w))
  ∧ (∀ child_id n_proc (w w' : worker),
       pent_verify factory (child_id, n_proc) w = Ret w' →
       worker_results w'
       = worker_results w
         ++ deviations_beyond tol_default factory
              (verify_assigned factory child_id n_proc)
       ∧ ∀ it, it ∈ verify_assigned factory child_id n_proc →
               returns (feq_verif_diff factory it.2))
  ∧ (∀ child_id n_proc,
       n_proc ≠ 0 →
       Z.of_nat (length (product (basis (FR factory)) 9)) ≤ ULONG_MOD →
       (verify_assigned factory child_id n_proc).*1
       = assign (Z.of_nat (length (product (basis (FR factory)) 9)))
           child_id n_proc
       ∧ ∀ i nonuple,
           (i, nonuple) ∈ verify_assigned factory child_id n_proc →
           product (basis (FR factory)) 9 !! Z.to_nat i = Some nonuple).
Proof.
  split_and!.
  - intros nonuple tol w diff. apply feq_verif_returns.
  - intros child_id n_proc it w diff Hmine Hd. unfold pent_verify_body.
    rewrite Hmine. cbn [mbind outcome_bind].
    rewrite (feq_verif_returns _ _ _ _ diff) by exact Hd.
    cbn [mbind outcome_bind default].
    destruct (_ && _); eexists; (split; [reflexivity|]);
      destruct (SFltb _ _); cbn; by rewrite ?app_nil_r.
  - intros child_id n_proc w Hn Hall. unfold pent_verify.
    destruct (for_each_returns (pent_verify_body factory child_id n_proc)
                (enumerate_ulong 0 (product (basis (FR factory)) 9)) w)
      as [w' Hw'].
    + intros it w0 Hin. apply pent_verify_body_returns; [exact Hn|].
      apply Hall. rewrite <- (enumerate_ulong_snd 0).
      apply list_elem_of_fmap. by exists it.
    + rewrite Hw'. by eexists.
  - intros child_id n_proc w w' Hpass. unfold pent_verify in Hpass.
    destruct (for_each (pent_verify_body factory child_id n_proc)
                (enumerate_ulong 0 (product (basis (FR factory)) 9)) w)
      as [w1| |] eqn:Hloop; try discriminate Hpass.
    cbn [mbind outcome_bind] in Hpass. injection Hpass as <-.
    cbn [print worker_results].
    exact (pent_verify_loop_records _ _ _ _ _ _ Hloop).
  - intros child_id n_proc Hn Hlen. unfold verify_assigned. split.
    + rewrite strided_fst by exact Hlen. apply filter_stride_test.
      intros i. by apply py_stride_test_nonzero.
    + intros i nonuple. by apply strided_lookup.
Qed.

End Properties.

(** * The code on concrete inputs *)

Section Examples.
Import Toy.

(** Scenario C of the specification. *)
Example assign_10_3 :
  assign 10 0 3 = [0; 3; 6; 9] ∧ assign 10 1 3 = [1; 4; 7]
  ∧ assign 10 2 3 = [2; 5; 8].
Proof. by vm_compute. Qed.

(** Scenario A, on the fusion ring of [Z/2]: no equation is produced. *)
Example z2_generators_yield_nothing :
  get_reduced_hexagons z2_factory (0, 1) w0 = Ret w0
  ∧ get_reduced_pentagons z2_factory (0, 1) (Some false) w0 = Ret w0.
Proof. by vm_compute. Qed.

(** ** C1 *)

Lemma partition_complete_witness :
  (hexagon_assigned (factory [0; 1]%nat) 1 3).*1 = assign 64 1 3
  ∧ product (basis (FR (factory [0; 1]%nat))) 6 !! 1%nat
    = Some [0; 0; 0; 0; 0; 1]%nat
  ∧ (pentagon_assigned (factory [0; 1]%nat) 2 3).*1 = assign 512 2 3
  ∧ get_reduced_pentagons (factory [0; 1]%nat) (2, 3) None w0
    = for_each (λ it, pentagon_generate (factory [0; 1]%nat) true it.2)
        (pentagon_assigned (factory [0; 1]%nat) 2 3) w0
  ∧ (w ← seqZ 0 3; assign 10 w 3) ≡ₚ seqZ 0 10.
Proof.
  destruct (partition_complete (factory [0; 1]%nat) 3 ltac:(lia))
    as (Hspec & Hhex & Hpent).
  destruct (Hhex ltac:(by vm_compute) 1) as (Hhex1 & Hhex2 & _).
  destruct (Hpent ltac:(by vm_compute) ltac:(by vm_compute) 2 ltac:(lia))
    as (Hpent1 & _ & Hpent3).
  split_and!.
  - exact Hhex1.
  - apply (Hhex2 1). apply list_elem_of_lookup. exists 0%nat. by vm_compute.
  - exact Hpent1.
  - apply (Hpent3 None w0).
  - apply (Hspec 10 ltac:(lia)).
Defined.

(** Beyond [2^64] positions the counter starts again: in an enumeration of
    [2^64 + 1] items the last one is bound with [i = 0], so that worker 0 of
    3 takes it, while its position, [2^64], is 1 modulo 3. *)
Lemma counter_wraps_after_ulong_max :
  let n := Z.to_nat ULONG_MOD in
  enumerate_ulong 0 (replicate (S n) ()) !! n = Some (0, ())
  ∧ py_stride_test 0 3 0 = Ret true
  ∧ ULONG_MOD mod 3 = 1.
Proof.
  intros n.
  assert (Hn : Z.of_nat n = ULONG_MOD) by (apply Z2Nat.id; by vm_compute).
  clearbody n. split_and!; [|by vm_compute..].
  rewrite enumerate_ulong_lookup_counter by (by vm_compute).
  rewrite lookup_replicate_2 by lia. cbn [fmap option_fmap option_map].
  rewrite Hn. by vm_compute.
Qed.

(** With [2^31] workers on the 512 pentagons of a two-element basis, worker
    511 is owed position 511, whose equation is not zero; the pentagon loop
    raises [OverflowError] on its descriptor and produces nothing, for this
    worker and for every other.  And past [2^64] positions a position is
    taken by the worker of its counter, not of its residue. *)
Lemma partition_outside_machine_ranges :
  0 < 2 ^ 31
  ∧ Z.of_nat (length (product (basis (FR (factory [0; 1]%nat))) 9)) = 512
  ∧ assign 512 511 (2 ^ 31) = [511]
  ∧ product (basis (FR (factory [0; 1]%nat))) 9 !! 511%nat = Some ones
  ∧ pentagon_generate (factory [0; 1]%nat) false ones w0
    = Ret (append (Eqn [([], -1)]) w0)
  ∧ get_reduced_pentagons (factory [0; 1]%nat) (511, 2 ^ 31) (Some false) w0
    = Raise OverflowError
  ∧ (∀ child_id prune w,
       get_reduced_pentagons (factory [0; 1]%nat) (child_id, 2 ^ 31) prune w
       = Raise OverflowError)
  ∧ (let n := Z.to_nat ULONG_MOD in
     enumerate_ulong 0 (replicate (S n) ()) !! n = Some (0, ())
     ∧ py_stride_test 0 3 0 = Ret true
     ∧ ULONG_MOD mod 3 = 1).
Proof.
  split_and!; [by vm_compute..| |exact counter_wraps_after_ulong_max].
  intros child_id prune w.
  assert (Hn : as_int (2 ^ 31) = Raise OverflowError) by (by vm_compute).
  unfold get_reduced_pentagons. cbn [fst snd]. rewrite Hn.
  unfold as_int. by destruct (bool_decide (INT_MIN ≤ child_id ≤ INT_MAX)).
Qed.

(** ** C2 *)

Lemma fmat_three_tier_witness :
  (_fmat (set_fvars ∅ z2_factory) 1 1 0 0 1 1)%nat = Ret (PyInt 0)
  ∧ (_fmat (set_fvars ∅ z2_factory) 0 1 1 0 1 0)%nat = Ret (PyInt 1)
  ∧ (_fmat (set_fvars ∅ z2_factory) 1 0 1 0 1 1)%nat = Ret (PyInt 1)
  ∧ (_fmat (set_fvars ∅ z2_factory) 1 1 0 0 0 1)%nat = Ret (PyInt 1)
  ∧ (_fmat (set_fvars (_fvars z2_factory) z2_factory) 1 1 1 1 0 0)%nat
    = Ret (Elt 1)
  ∧ (_fmat z2_factory 0 0 0 0 0 0)%nat = Ret (PyInt 1).
Proof.
  assert (Hunit : ∀ i j k : nat,
            Nk_ij z2_ring i j k ≠ 0 →
            (i < 2)%nat ∧ (j < 2)%nat ∧ ((i + j) mod 2)%nat = k).
  { intros i j k. cbn. case_bool_decide; [tauto|done]. }
  split_and!.
  - destruct (fmat_three_tier z2_factory 1 1 0 0 1 1)%nat as (Hzero & _ & _).
    apply Hzero. left. reflexivity.
  - destruct (fmat_three_tier z2_factory 0 1 1 0 1 0)%nat as (_ & Hcases & _).
    destruct Hcases as (Ha & _); [by vm_compute..|].
    apply Ha. reflexivity.
  - destruct (fmat_three_tier z2_factory 1 0 1 0 1 1)%nat as (_ & Hcases & _).
    destruct Hcases as (_ & Hb & _); [by vm_compute..|].
    apply Hb; by vm_compute.
  - destruct (fmat_three_tier z2_factory 1 1 0 0 0 1)%nat as (_ & Hcases & _).
    destruct Hcases as (_ & _ & Hc & _); [by vm_compute..|].
    apply Hc; by vm_compute.
  - destruct (fmat_three_tier z2_factory 1 1 1 1 0 0)%nat as (_ & Hcases & _).
    destruct Hcases as (_ & _ & _ & Hstored); [by vm_compute..|].
    apply Hstored; by vm_compute.
  - destruct (fmat_three_tier z2_factory 0 0 0 0 0 0)%nat as (_ & _ & Hflat).
    apply Hflat; try by vm_compute.
    + intros j k (_ & Hlt & Hmod)%Hunit.
      rewrite Nat.add_0_l, Nat.mod_small in Hmod by lia. exact Hmod.
    + intros i k (Hlt & _ & Hmod)%Hunit.
      rewrite Nat.add_0_r, Nat.mod_small in Hmod by lia. exact Hmod.
Defined.

(** ** C3 *)

(** On all-ones multiplicities with the F-symbol of [(1,1,1,1,1,1)] zero,
    worker 0 of 3 called without [prune] returns one equation; with
    [prune=False] it returns six. *)
Lemma pruning_off_by_default_fails :
  get_reduced_pentagons (factory [0; 1]%nat) (0, 3) None w0
    = Ret {| worker_results := [Eqn [([], -1)]]; stdout := [] |}
  ∧ get_reduced_pentagons (factory [0; 1]%nat) (0, 3) (Some false) w0
    = Ret {| worker_results := replicate 6 (Eqn [([], -1)]);
             stdout := [] |}
  ∧ get_reduced_pentagons (factory [0; 1]%nat) (0, 3) None w0
    ≠ get_reduced_pentagons (factory [0; 1]%nat) (0, 3) (Some false) w0.
Proof. by vm_compute. Qed.

Lemma pruning_is_on_by_default_witness :
  feq_cy (factory [0; 1]%nat) ones true = Ret 0
  ∧ pentagon_generate (factory [0; 1]%nat) true ones w0 = Ret w0.
Proof.
  destruct (proj2 (pruning_is_on_by_default (factory [0; 1]%nat))
              1%nat 1%nat 1%nat 1%nat 1%nat 1%nat 1%nat 1%nat 1%nat
              (Elt 0) (Elt 0) w0) as [Hfeq Hgen];
    [by vm_compute..|].
  split; [exact Hfeq|]. apply Hgen. reflexivity.
Defined.

(** ** C4 *)

(** Worker 0 of 3 steps through position 1, and through all of the 64
    positions, of which 22 are its own. *)
Lemma worker_steps_outside_its_stride :
  (1, [0; 0; 0; 0; 0; 1]%nat) ∈ hexagon_steps (factory [0; 1]%nat) 0 3 w0
  ∧ 1 mod 3 ≠ 0
  ∧ length (hexagon_steps (factory [0; 1]%nat) 0 3 w0) = 64%nat
  ∧ length (hexagon_assigned (factory [0; 1]%nat) 0 3) = 22%nat.
Proof.
  split_and!; [|by vm_compute..].
  apply list_elem_of_lookup. exists 1%nat. by vm_compute.
Qed.

Lemma workers_step_through_every_position_witness :
  (hexagon_steps (factory [0; 1]%nat) 0 3 w0).*1 = seqZ 0 64
  ∧ (pentagon_steps (factory [0; 1]%nat) true 2 3 w0).*1 = seqZ 0 512.
Proof.
  split.
  - destruct (workers_step_through_every_position
                (factory [0; 1]%nat) 0 3 true w0) as (Hhex & _).
    apply Hhex; [by vm_compute|eexists; by vm_compute].
  - destruct (workers_step_through_every_position
                (factory [0; 1]%nat) 2 3 true w0) as (_ & Hpent & _).
    apply Hpent; [by vm_compute|eexists; by vm_compute].
Defined.

(** ** C5 *)

(** [3 x^2 - 12] takes the monic path, [5 x] the generic one. *)
Lemma update_reduce_order_witness :
  update_reduce z2_factory [([2%nat], 3); ([0%nat], -12)] w0
    = append (Eqn [([2%nat], 1); ([0%nat], -4)]) w0
  ∧ update_reduce z2_factory [([1%nat], 5)] w0
    = append (Eqn [([1%nat], 5)]) w0.
Proof.
  split.
  - rewrite (proj1 (update_reduce_order z2_factory
                      [([2%nat], 3); ([0%nat], -12)] w0)
               ltac:(by vm_compute)).
    by vm_compute.
  - rewrite (proj2 (update_reduce_order z2_factory [([1%nat], 5)] w0)
               ltac:(by vm_compute)).
    by vm_compute.
Defined.

(** ** C6 *)

Lemma collector_drains_and_discards_zero_witness :
  hexagon_generate z2_factory [0; 0; 0; 0; 0; 0]%nat w0 = Ret w0.
Proof.
  destruct (collector_drains_and_discards_zero (A := nat) (P := Z)
              (Solved := list nat) (KS := list nat) (VarDegs := list nat)
              (NNZ := list nat) (KP := list nat) tt w0)
    as (_ & _ & _ & _ & Hgen).
  apply (Hgen z2_factory [0; 0; 0; 0; 0; 0]%nat (Elt 0)); by vm_compute.
Defined.

(** ** C10 *)

(** A buffer that holds an equation twice and the empty tuple: the
    equation is returned once, the empty tuple is not. *)
Lemma collector_dedups_and_ignores_proc_witness :
  length (filter (Eqn [([], 7)] =.)
            (collect_eqns ()
               {| worker_results :=
                    [Eqn [([], 7)]; Eqn []; Eqn [([], -1)];
                     Eqn ([([], 7)] : list (list nat * Z))];
                  stdout := [] |}).1) = 1%nat
  ∧ (collect_eqns ()
       {| worker_results :=
            [Eqn [([], 7)]; Eqn []; Eqn [([], -1)];
             Eqn ([([], 7)] : list (list nat * Z))];
          stdout := [] |}).1
    = [Eqn [([], 7)]; Eqn [([], -1)]].
Proof.
  destruct (collector_dedups_and_ignores_proc () 0%nat
              {| worker_results :=
                   [Eqn [([], 7)]; Eqn []; Eqn [([], -1)];
                    Eqn ([([], 7)] : list (list nat * Z))];
                 stdout := [] |}) as (_ & _ & Honce & _).
  split; [|by vm_compute].
  apply Honce; [|discriminate].
  cbn [worker_results]. apply list_elem_of_here.
Defined.

(** ** C8 *)



(** ** C9 *)

(** The pentagon of [(1,...,1)] deviates by [-1.0], which is recorded;
    and the pass over all 512 pentagons returns. *)
Lemma verification_records_deviations_witness :
  feq_verif (factory [0; 1]%nat) ones None w0
    = Ret (append (Diff (S754_finite true 8388608 (-23))) w0)
  ∧ (∃ w', pent_verify_body (factory [0; 1]%nat) 1 2 (511, ones) w0 = Ret w'
           ∧ worker_results w' = [Diff (S754_finite true 8388608 (-23))])
  ∧ returns (pent_verify (factory [0; 1]%nat) (0, 3) w0)
  ∧ pent_verify (factory [0; 1]%nat) (0, 3) ToyEdge.w7
    = Ret {| worker_results :=
               Eqn [([], 7)]
               :: replicate 6 (Diff (S754_finite true 8388608 (-23)));
             stdout := [Summary (Some 511) 0 7] |}
  ∧ worker_results
      {| worker_results :=
           Eqn ([([], 7)] : list (list nat * Z))
           :: replicate 6 (Diff (S754_finite true 8388608 (-23)));
         stdout := [Summary (Some 511) 0 7] |}
    = worker_results ToyEdge.w7
      ++ deviations_beyond tol_default (factory [0; 1]%nat)
           (verify_assigned (factory [0; 1]%nat) 0 3)
  ∧ deviations_beyond (Mon := list nat) (K := Z) tol_default
      (factory [0; 1]%nat) (verify_assigned (factory [0; 1]%nat) 0 3)
    = replicate 6 (Diff (S754_finite true 8388608 (-23)))
  ∧ (verify_assigned (factory [0; 1]%nat) 0 3).*1 = assign 512 0 3.
Proof.
  destruct (verification_records_deviations (Mon := list nat) (K := Z)
              (factory [0; 1]%nat))
    as (Hone & Hbody & Hall & Hpass & Hstride).
  destruct (Hpass 0 3 ToyEdge.w7
              {| worker_results :=
                   Eqn [([], 7)]
                   :: replicate 6 (Diff (S754_finite true 8388608 (-23)));
                 stdout := [Summary (Some 511) 0 7] |})
    as [Hres _]; [by vm_compute|].
  destruct (Hstride 0 3) as [Hassign _]; [lia|by vm_compute|].
  split_and!; [| | |by vm_compute|exact Hres|by vm_compute|exact Hassign].
  - apply (Hone ones None w0 (S754_finite true 8388608 (-23))).
    by vm_compute.
  - apply (Hbody 1 2 (511, ones) w0 (S754_finite true 8388608 (-23)));
      by vm_compute.
  - apply Hall; [lia|].
    apply Forall_forall.
    apply (bool_decide_unpack _). by vm_compute.
Defined.

End Examples.


(** * Further properties of the code *)

(** ** Failure modes of loops *)

Lemma fails_only_mono {T} (Q Q' : exn → Prop) (m : outcome T) :
  (∀ e, Q e → Q' e) → fails_only Q m → fails_only Q' m.
Proof. intros HQ. destruct m; simpl; auto. Qed.

Lemma fails_only_bind {T U} (Q : exn → Prop) (m : outcome T)
    (f : T → outcome U) :
  fails_only Q m → (∀ t, m = Ret t → fails_only Q (f t)) →
  fails_only Q (m ≫= f).
Proof. destruct m; simpl; auto. Qed.

Lemma fails_only_for_each {X St} (Q : exn → Prop)
    (body : X → St → outcome St) (xs : list X) (s : St) :
  (∀ x s, x ∈ xs → fails_only Q (body x s)) →
  fails_only Q (for_each body xs s).
Proof.
  revert s. induction xs as [|x xs IH]; intros s Hb; [exact I|].
  cbn [for_each]. apply fails_only_bind; [apply Hb; left|].
  intros s' _. apply IH. intros y s0 Hy. apply Hb. by right.
Qed.

Lemma fails_only_returns {T} (m : outcome T) :
  fails_only (λ _, False) m ↔ returns m.
Proof.
  destruct m; simpl; split; try done; try (intros [t Ht]; discriminate Ht).
  by eexists.
Qed.

(** A relation that every step of the body respects holds between the
    states before and after the loop. *)
Lemma for_each_invariant {X St} (R : relation St)
    (body : X → St → outcome St) (xs : list X) (s s' : St) :
  (∀ s, R s s) → (∀ s1 s2 s3, R s1 s2 → R s2 s3 → R s1 s3) →
  (∀ x s s', x ∈ xs → body x s = Ret s' → R s s') →
  for_each body xs s = Ret s' → R s s'.
Proof.
  intros Hrefl Htrans. revert s. induction xs as [|x xs IH]; intros s Hb Hs.
  - injection Hs as <-. apply Hrefl.
  - cbn [for_each] in Hs. destruct (body x s) as [s1| |] eqn:Hx;
      try discriminate Hs.
    apply (Htrans _ s1); [apply (Hb x); [left|exact Hx]|].
    apply IH; [|exact Hs]. intros y t t' Hy. apply Hb. by right.
Qed.

(** The tuples of [itertools.product] have the length asked for and their
    components in the list. *)
Lemma elem_of_product {X} (xs : list X) (r : nat) (t : list X) :
  t ∈ product xs r → length t = r ∧ ∀ x, x ∈ t → x ∈ xs.
Proof.
  revert t. induction r as [|r IH]; intros t; cbn [product].
  - intros ->%list_elem_of_singleton. split; [reflexivity|].
    intros x Hx. inversion Hx.
  - intros (x & (t' & -> & Ht')%list_elem_of_fmap & Hx)%list_elem_of_bind.
    destruct (IH _ Ht') as [Hlen Hin]. split; [by rewrite <- Hlen|].
    intros y [->|Hy]%elem_of_cons; auto.
Qed.

Lemma elem_of_enumerate_ulong {X} (start : Z) (xs : list X) (it : Z * X) :
  it ∈ enumerate_ulong start xs → it.2 ∈ xs.
Proof.
  intros Hin. rewrite <- (enumerate_ulong_snd start xs).
  apply list_elem_of_fmap. by exists it.
Qed.

Lemma enumerate_ulong_range {X} (start : Z) (xs : list X) (it : Z * X) :
  0 ≤ start < ULONG_MOD → it ∈ enumerate_ulong start xs →
  0 ≤ it.1 < ULONG_MOD.
Proof.
  revert start. induction xs as [|x xs IH]; intros start Hs Hin.
  - inversion Hin.
  - cbn [enumerate_ulong] in Hin.
    apply elem_of_cons in Hin as [->|Hin]; [exact Hs|].
    apply (IH (wrap_ulong (start + 1))); [|exact Hin].
    apply Z.mod_pos_bound. by vm_compute.
Qed.

(** ** Failure modes of the generators *)

Section GeneratorFailures.
Context {A : Type} `{Countable A}.
Context {P : Type} `{RingOps P}.
Context {Mon K : Type} `{Countable Mon} `{Countable K}.
Context {Solved KS VarDegs NNZ KP KV : Type}.
Context `{!@PolyTupEngine P Mon K KS VarDegs NNZ KP KV}.

Abbreviation FMatrix := (@FMatrix A _ _ P Solved KS VarDegs NNZ KP).
Abbreviation worker := (@worker Mon K).

Lemma fmat_fails_only (factory : FMatrix) a b c d x y :
  fails_only (λ e, e = KeyError) (_fmat factory a b c d x y).
Proof.
  unfold _fmat, fvars_getitem; cbv zeta.
  repeat (destruct (bool_decide _); cbn [orb andb fails_only]; try exact I).
  by destruct (_ !! _).
Qed.

Lemma fmat_returns_complete (factory : FMatrix) a b c d x y :
  fvars_complete factory →
  a ∈ basis (FR factory) → b ∈ basis (FR factory) →
  c ∈ basis (FR factory) → d ∈ basis (FR factory) →
  x ∈ basis (FR factory) → y ∈ basis (FR factory) →
  fails_only (λ _, False) (_fmat factory a b c d x y).
Proof.
  intros Hc Ha Hb Hcc Hd Hx Hy. unfold _fmat, fvars_getitem; cbv zeta.
  repeat (destruct (bool_decide _); cbn [orb andb fails_only]; try exact I).
  by destruct (Hc a b c d x y) as [v ->].
Qed.

Lemma py_sub_elt (p : P) (v : @pyval P) : ∃ q, py_sub (Elt p) v = Elt q.
Proof. destruct v; by eexists. Qed.

Lemma req_cy_elt (factory : FMatrix) sextuple side he :
  req_cy factory sextuple side = Ret he → ∃ p, he = Elt p.
Proof.
  unfold req_cy. destruct (unpack6 sextuple) as [[[[[[a b] c] d] e] g]| |];
    try discriminate.
  cbn [mbind outcome_bind]. destruct (_fmat _ _ _ _ _ _ _) as [f0| |];
    try discriminate.
  cbn [mbind outcome_bind]. destruct (for_each _ _ _) as [rhs| |];
    try discriminate.
  cbn [mbind outcome_bind]. intros [= <-].
  destruct f0; apply py_sub_elt.
Qed.

Lemma rhs_loop_elt {X} (body : X → @pyval P → outcome (@pyval P))
    (xs : list X) (p : P) rhs :
  (∀ x p r, body x (Elt p) = Ret r → ∃ q, r = Elt q) →
  for_each body xs (Elt p) = Ret rhs → ∃ q, rhs = Elt q.
Proof.
  intros Hbody. revert p. induction xs as [|x xs IH]; intros p; cbn [for_each].
  - intros [= <-]. by eexists.
  - destruct (body x (Elt p)) as [r| |] eqn:Hr; try discriminate.
    apply Hbody in Hr as [q ->]. cbn [mbind outcome_bind]. apply IH.
Qed.

(** Whatever bounds the failures of [_fmat] on basis elements bounds those
    of the generators on the tuples of the enumeration. *)
Section Bounded.
Variable factory : FMatrix.
Variable Q : exn → Prop.
Hypothesis fmat_bounded : ∀ a b c d x y,
  a ∈ basis (FR factory) → b ∈ basis (FR factory) →
  c ∈ basis (FR factory) → d ∈ basis (FR factory) →
  x ∈ basis (FR factory) → y ∈ basis (FR factory) →
  fails_only Q (_fmat factory a b c d x y).

Lemma req_cy_bounded sextuple side :
  sextuple ∈ product (basis (FR factory)) 6 →
  fails_only Q (req_cy factory sextuple side).
Proof.
  intros [Hlen Hin]%elem_of_product.
  destruct sextuple as [|a [|b [|c [|d [|e [|g [|]]]]]]]; try discriminate.
  unfold req_cy. cbn [unpack6 mbind outcome_bind].
  apply fails_only_bind; [apply fmat_bounded; apply Hin; set_solver|].
  intros f0 _. apply fails_only_bind; [|by intros].
  apply fails_only_for_each. intros f rhs Hf.
  apply fails_only_bind; [apply fmat_bounded; auto; apply Hin; set_solver|].
  intros f1 _.
  apply fails_only_bind; [apply fmat_bounded; auto; apply Hin; set_solver|].
  by intros.
Qed.

Lemma hexagon_generate_bounded sextuple (w : worker) :
  sextuple ∈ product (basis (FR factory)) 6 →
  fails_only Q (hexagon_generate factory sextuple w).
Proof.
  intros Hin. unfold hexagon_generate.
  apply fails_only_bind; [by apply req_cy_bounded|].
  intros he [p ->]%req_cy_elt. by destruct (py_truth _).
Qed.

Lemma feq_cy_bounded nonuple prune :
  nonuple ∈ product (basis (FR factory)) 9 →
  fails_only Q (feq_cy factory nonuple prune).
Proof.
  intros [Hlen Hin]%elem_of_product.
  destruct nonuple as [|a [|b [|c [|d [|e [|f [|g [|k [|l [|]]]]]]]]]];
    try discriminate.
  unfold feq_cy. cbn [unpack9 mbind outcome_bind].
  apply fails_only_bind; [apply fmat_bounded; apply Hin; set_solver|].
  intros f0 _.
  apply fails_only_bind; [apply fmat_bounded; apply Hin; set_solver|].
  intros f1 _. destruct (_ && _); [exact I|].
  apply fails_only_bind.
  - apply fails_only_for_each. intros h rhs Hh.
    apply fails_only_bind; [apply fmat_bounded; auto; apply Hin; set_solver|].
    intros f2 _.
    apply fails_only_bind; [apply fmat_bounded; auto; apply Hin; set_solver|].
    intros f3 _.
    apply fails_only_bind; [apply fmat_bounded; auto; apply Hin; set_solver|].
    by intros.
  - intros rhs Hrhs. apply rhs_loop_elt in Hrhs as [q ->].
    + by destruct (py_mul f0 f1).
    + intros h p r. destruct (_fmat factory a b c g f h); try discriminate.
      cbn [mbind outcome_bind].
      destruct (_fmat factory a h d e g k); try discriminate.
      cbn [mbind outcome_bind].
      destruct (_fmat factory b c d k h l); try discriminate.
      cbn [mbind outcome_bind]. intros [= <-].
      destruct (py_mul _ _); by eexists.
Qed.

Lemma pentagon_generate_bounded prune nonuple (w : worker) :
  nonuple ∈ product (basis (FR factory)) 9 →
  fails_only Q (pentagon_generate factory prune nonuple w).
Proof.
  intros Hin. unfold pentagon_generate.
  apply fails_only_bind; [by apply feq_cy_bounded|].
  intros pe _. by destruct (negb _).
Qed.

End Bounded.
End GeneratorFailures.

Lemma product_nonempty {X} (xs : list X) (r : nat) :
  xs ≠ [] → product xs r ≠ [].
Proof.
  intros Hxs Hnil. apply (f_equal length) in Hnil.
  rewrite length_product in Hnil. cbn [length] in Hnil.
  apply Nat.pow_eq_0_iff in Hnil as [_ Hlen].
  by apply length_zero_iff_nil in Hlen.
Qed.

Lemma product_empty {X} (r : nat) : product (@nil X) (S r) = [].
Proof. reflexivity. Qed.

Lemma as_int_Ret (z t : Z) :
  as_int z = Ret t → t = z ∧ INT_MIN ≤ z ≤ INT_MAX.
Proof. unfold as_int. case_bool_decide; [by intros [= <-]|discriminate]. Qed.

Lemma as_int_fails_only (z : Z) :
  fails_only (λ e, e = OverflowError) (as_int z).
Proof. unfold as_int. by case_bool_decide. Qed.

Lemma wrap_ulong_int (z : Z) :
  INT_MIN ≤ z ≤ INT_MAX →
  wrap_ulong z = if bool_decide (0 ≤ z) then z else z + ULONG_MOD.
Proof.
  unfold INT_MIN, INT_MAX, wrap_ulong, ULONG_MOD. intros Hz.
  case_bool_decide.
  - apply Z.mod_small. lia.
  - symmetry. apply (Z.mod_unique_pos _ _ (-1)); lia.
Qed.

(** A loop whose body always returns and respects a relation returns, and
    the relation holds between the states before and after. *)
Lemma for_each_total_invariant {X St} (R : relation St)
    (body : X → St → outcome St) (xs : list X) (s : St) :
  (∀ s, R s s) → (∀ s1 s2 s3, R s1 s2 → R s2 s3 → R s1 s3) →
  (∀ x s, x ∈ xs → ∃ s', body x s = Ret s' ∧ R s s') →
  ∃ s', for_each body xs s = Ret s' ∧ R s s'.
Proof.
  intros Hrefl Htrans. revert s. induction xs as [|x xs IH]; intros s Hb.
  - exists s. split; [reflexivity|apply Hrefl].
  - destruct (Hb x s) as (s1 & Hs1 & HR1); [left|].
    destruct (IH s1) as (s' & Hs' & HR').
    { intros y t Hy. apply Hb. by right. }
    exists s'. cbn [for_each]. rewrite Hs1. split; [exact Hs'|].
    by apply (Htrans _ s1).
Qed.

Section FurtherProperties.
Context {A : Type} `{Countable A}.
Context {P : Type} `{RingOps P}.
Context {Mon K : Type} `{Countable Mon} `{Countable K}.
Context {Solved KS VarDegs NNZ KP KV : Type}.
Context `{!@PolyTupEngine P Mon K KS VarDegs NNZ KP KV}.
Context `{!@FMatrixMethods A _ _ P Solved KS VarDegs NNZ KP KV}.
Context `{!@FloatCoercion P}.
Context `{!@Unmodelled A _ _ P Mon K Solved KS VarDegs NNZ KP}.
Context `{!@SetOrder Mon K}.

Abbreviation FMatrix := (@FMatrix A _ _ P Solved KS VarDegs NNZ KP).
Abbreviation worker := (@worker Mon K).

(** ** How the generator loops can fail *)

Lemma hexagon_loop_bounded (factory : FMatrix) (Q : exn → Prop)
    child_id n_proc (w : worker) :
  (∀ a b c d x y,
     a ∈ basis (FR factory) → b ∈ basis (FR factory) →
     c ∈ basis (FR factory) → d ∈ basis (FR factory) →
     x ∈ basis (FR factory) → y ∈ basis (FR factory) →
     fails_only Q (_fmat factory a b c d x y)) →
  n_proc ≠ 0 →
  fails_only Q (get_reduced_hexagons factory (child_id, n_proc) w).
Proof.
  intros Hfmat Hn. unfold get_reduced_hexagons.
  apply fails_only_for_each. intros it w1 Hit%elem_of_enumerate_ulong.
  unfold hexagon_body. rewrite py_stride_test_nonzero by exact Hn.
  cbn [mbind outcome_bind]. destruct (bool_decide _); [|exact I].
  by apply hexagon_generate_bounded.
Qed.

Lemma pentagon_loop_bounded (factory : FMatrix) (Q : exn → Prop)
    child_id n_proc prune (w : worker) :
  (∀ a b c d x y,
     a ∈ basis (FR factory) → b ∈ basis (FR factory) →
     c ∈ basis (FR factory) → d ∈ basis (FR factory) →
     x ∈ basis (FR factory) → y ∈ basis (FR factory) →
     fails_only Q (_fmat factory a b c d x y)) →
  Q OverflowError ∨ (INT_MIN ≤ child_id ≤ INT_MAX ∧ INT_MIN ≤ n_proc ≤ INT_MAX) →
  n_proc ≠ 0 →
  fails_only Q (get_reduced_pentagons factory (child_id, n_proc) prune w).
Proof.
  intros Hfmat Hrange Hn. unfold get_reduced_pentagons. cbn [fst snd].
  assert (Hconv : ∀ z, z = child_id ∨ z = n_proc → fails_only Q (as_int z)).
  { intros z Hz. unfold as_int. case_bool_decide as Hb; [exact I|].
    destruct Hrange as [HQ|[Hc Hp]]; [exact HQ|].
    destruct Hz as [->| ->]; contradiction. }
  apply fails_only_bind; [apply Hconv; by left|].
  intros c [-> Hc]%as_int_Ret.
  apply fails_only_bind; [apply Hconv; by right|].
  intros n [-> Hp]%as_int_Ret.
  apply fails_only_for_each. intros it w1 Hit%elem_of_enumerate_ulong.
  unfold pentagon_body, c_stride_test; cbv zeta.
  rewrite (wrap_ulong_int n_proc) by exact Hp.
  rewrite bool_decide_eq_false_2.
  - cbn [mbind outcome_bind]. destruct (bool_decide (_ = wrap_ulong _));
      [|exact I].
    by apply pentagon_generate_bounded.
  - unfold INT_MIN, INT_MAX, ULONG_MOD in *. case_bool_decide; lia.
Qed.

(** X1. A generator loop fails in few ways.  With [n_proc] not zero, the
    hexagon loop returns or raises [KeyError] (an F-symbol that [_fvars]
    does not hold), and the pentagon loop returns or raises [KeyError] or
    [OverflowError] (a descriptor outside C [int]); neither raises anything
    else, and neither has undefined behaviour. *)
Theorem generator_loops_failure_modes (factory : FMatrix)
    (child_id n_proc : Z) (prune : option bool) (w : worker) :
  n_proc ≠ 0 →
  fails_only (λ e, e = KeyError)
    (get_reduced_hexagons factory (child_id, n_proc) w)
  ∧ fails_only (λ e, e = KeyError ∨ e = OverflowError)
      (get_reduced_pentagons factory (child_id, n_proc) prune w).
Proof.
  intros Hn. split.
  - apply hexagon_loop_bounded; [|exact Hn].
    intros. apply fmat_fails_only.
  - apply pentagon_loop_bounded; [|by left; right|exact Hn].
    intros. eapply fails_only_mono; [|apply fmat_fails_only].
    intros e ->. by left.
Qed.

(** X2. When [_fvars] holds an F-symbol for every sextuple of basis
    elements and [n_proc] is not zero, the hexagon loop returns; so does
    the pentagon loop when moreover the descriptor fits C [int]. *)
Theorem generator_loops_return (factory : FMatrix)
    (child_id n_proc : Z) (prune : option bool) (w : worker) :
  fvars_complete factory → n_proc ≠ 0 →
  returns (get_reduced_hexagons factory (child_id, n_proc) w)
  ∧ (INT_MIN ≤ child_id ≤ INT_MAX → INT_MIN ≤ n_proc ≤ INT_MAX →
     returns (get_reduced_pentagons factory (child_id, n_proc) prune w)).
Proof.
  intros Hc Hn. split.
  - apply fails_only_returns.
    apply hexagon_loop_bounded; [|exact Hn].
    intros. by apply fmat_returns_complete.
  - intros Hcid Hnp. apply fails_only_returns.
    apply pentagon_loop_bounded; [|by right|exact Hn].
    intros. by apply fmat_returns_complete.
Qed.

(** ** Degenerate descriptors and bases *)

Lemma for_each_skip {X St} (body : X → St → outcome St) (xs : list X)
    (s : St) :
  (∀ x, x ∈ xs → body x s = Ret s) → for_each body xs s = Ret s.
Proof.
  induction xs as [|x xs IH]; intros Hb; [reflexivity|].
  cbn [for_each]. rewrite Hb by left. cbn [mbind outcome_bind].
  apply IH. intros y Hy. apply Hb. by right.
Qed.

(** X3. With [n_proc = 0] and a basis that is not empty, the hexagon loop
    and the verification pass raise [ZeroDivisionError] at the first
    position, while the pentagon loop, whose test is a C remainder compiled
    without the check for zero, has undefined behaviour. *)
Theorem zero_workers (factory : FMatrix) (child_id : Z)
    (prune : option bool) (w : worker) :
  basis (FR factory) ≠ [] →
  get_reduced_hexagons factory (child_id, 0) w = Raise ZeroDivisionError
  ∧ pent_verify factory (child_id, 0) w = Raise ZeroDivisionError
  ∧ (INT_MIN ≤ child_id ≤ INT_MAX →
     get_reduced_pentagons factory (child_id, 0) prune w = Undefined).
Proof.
  intros Hb. split_and!.
  - unfold get_reduced_hexagons.
    destruct (product (basis (FR factory)) 6) as [|t ts] eqn:Hp;
      [by apply product_nonempty in Hp|].
    reflexivity.
  - unfold pent_verify.
    destruct (product (basis (FR factory)) 9) as [|t ts] eqn:Hp;
      [by apply product_nonempty in Hp|].
    reflexivity.
  - intros Hc. unfold get_reduced_pentagons, as_int. cbn [fst snd].
    rewrite (bool_decide_eq_true_2 (INT_MIN ≤ child_id ≤ INT_MAX))
      by exact Hc.
    rewrite (bool_decide_eq_true_2 (INT_MIN ≤ 0 ≤ INT_MAX))
      by (unfold INT_MIN, INT_MAX; lia).
    cbn [mbind outcome_bind].
    destruct (product (basis (FR factory)) 9) as [|t ts] eqn:Hp;
      [by apply product_nonempty in Hp|].
    reflexivity.
Qed.

(** X4. On an empty basis there is no tuple: the generator loops return
    with the worker as it was, whatever the descriptor ([n_proc = 0]
    included), and the verification pass only prints its summary, in which
    the count is the value of a variable that was never assigned. *)
Theorem empty_basis (factory : FMatrix) (child_id n_proc : Z)
    (prune : option bool) (w : worker) :
  basis (FR factory) = [] →
  get_reduced_hexagons factory (child_id, n_proc) w = Ret w
  ∧ pent_verify factory (child_id, n_proc) w
    = Ret (print (Summary None child_id (length (worker_results w))) w)
  ∧ (INT_MIN ≤ child_id ≤ INT_MAX → INT_MIN ≤ n_proc ≤ INT_MAX →
     get_reduced_pentagons factory (child_id, n_proc) prune w = Ret w).
Proof.
  intros Hb. split_and!.
  - unfold get_reduced_hexagons. by rewrite Hb.
  - unfold pent_verify. by rewrite Hb.
  - intros Hc Hn. unfold get_reduced_pentagons, as_int. cbn [fst snd].
    rewrite !bool_decide_eq_true_2 by assumption. by rewrite Hb.
Qed.

(** X5. A worker id outside [[0, n_proc)] is not refused: with
    [n_proc > 0] the loops run over the whole enumeration and return
    without having produced or recorded anything. *)
Theorem worker_id_out_of_range (factory : FMatrix) (child_id n_proc : Z)
    (prune : option bool) (w : worker) :
  0 < n_proc → ¬ (0 ≤ child_id < n_proc) →
  get_reduced_hexagons factory (child_id, n_proc) w = Ret w
  ∧ (∃ w', pent_verify factory (child_id, n_proc) w = Ret w'
           ∧ worker_results w' = worker_results w)
  ∧ (INT_MIN ≤ child_id ≤ INT_MAX → n_proc ≤ INT_MAX →
     get_reduced_pentagons factory (child_id, n_proc) prune w = Ret w).
Proof.
  intros Hn Hout.
  assert (Htest : ∀ i,
            py_stride_test i n_proc child_id = Ret false).
  { intros i. rewrite py_stride_test_nonzero by lia.
    rewrite bool_decide_eq_false_2; [reflexivity|].
    pose proof (Z.mod_pos_bound i n_proc Hn). lia. }
  split_and!.
  - unfold get_reduced_hexagons. apply for_each_skip.
    intros it _. unfold hexagon_body. by rewrite Htest.
  - unfold pent_verify.
    destruct (for_each_total_invariant
                (λ w1 w2 : worker, worker_results w2 = worker_results w1)
                (pent_verify_body factory child_id n_proc)
                (enumerate_ulong 0 (product (basis (FR factory)) 9)) w)
      as (w' & Hw' & Hres); [done|by intros ??? -> ->|..].
    { intros it w1 _. unfold pent_verify_body. rewrite Htest.
      cbn [mbind outcome_bind]. destruct (_ && _); by eexists. }
    rewrite Hw'. cbn [mbind outcome_bind]. eexists. split; [reflexivity|].
    exact Hres.
  - intros Hc Hmax. unfold get_reduced_pentagons, as_int. cbn [fst snd].
    rewrite !bool_decide_eq_true_2
      by (unfold INT_MIN, INT_MAX in *; lia).
    cbn [mbind outcome_bind]. apply for_each_skip.
    intros it Hit. unfold pentagon_body, c_stride_test; cbv zeta.
    rewrite !wrap_ulong_int by (unfold INT_MIN, INT_MAX in *; lia).
    rewrite (bool_decide_eq_true_2 (0 ≤ n_proc)) by lia.
    rewrite bool_decide_eq_false_2 by lia.
    rewrite bool_decide_eq_false_2; [reflexivity|].
    pose proof (Z.mod_pos_bound it.1 n_proc Hn).
    unfold INT_MIN, INT_MAX, ULONG_MOD in *. case_bool_decide; lia.
Qed.

(** ** The result buffer under the mappers *)

Lemma hexagon_generate_appends (factory : FMatrix) sextuple (w w' : worker) :
  hexagon_generate factory sextuple w = Ret w' →
  w' = w ∨ ∃ r, w' = append r w.
Proof.
  unfold hexagon_generate. destruct (req_cy _ _ _) as [he| |]; try discriminate.
  cbn [mbind outcome_bind]. destruct (py_truth he); [|intros [= <-]; by left].
  destruct (dict_method he); try discriminate.
  cbn [mbind outcome_bind]. intros [= <-]. right. by eexists.
Qed.

Lemma pentagon_generate_appends (factory : FMatrix) prune nonuple
    (w w' : worker) :
  pentagon_generate factory prune nonuple w = Ret w' →
  w' = w ∨ ∃ r, w' = append r w.
Proof.
  unfold pentagon_generate. destruct (feq_cy _ _ _) as [pe| |];
    try discriminate.
  cbn [mbind outcome_bind]. destruct (negb _); intros [= <-];
    [right; by eexists|by left].
Qed.

Lemma feq_verif_appends (factory : FMatrix) nonuple tol (w w' : worker) :
  feq_verif factory nonuple tol w = Ret w' →
  w' = w ∨ ∃ r, w' = append r w.
Proof.
  unfold feq_verif. destruct (feq_verif_diff _ _) as [diff| |];
    try discriminate.
  cbn [mbind outcome_bind]. destruct (exceeds _ _); intros [= <-];
    [right; by eexists|by left].
Qed.

(** The worker [w'] holds the results of [w] and then some more, and has
    printed what [w] had and then some more. *)
Lemma grows_refl (w : worker) :
  worker_results w `prefix_of` worker_results w
  ∧ stdout w `prefix_of` stdout w.
Proof. split; reflexivity. Qed.

Lemma grows_append r (w : worker) :
  worker_results w `prefix_of` worker_results (append r w)
  ∧ stdout (append r w) = stdout w.
Proof. split; [by apply prefix_app_r|reflexivity]. Qed.

(** X6. The mappers only add to the result buffer: when a generator loop
    or the verification pass returns, the results the worker held before
    are still there, in their order, at the front of the buffer; the
    generator loops print nothing, and the verification pass only adds to
    what was printed. *)
Theorem mappers_only_append (factory : FMatrix) (mp_params : Z * Z)
    (prune : option bool) (w w' : worker) :
  (get_reduced_hexagons factory mp_params w = Ret w' →
     worker_results w `prefix_of` worker_results w'
     ∧ stdout w' = stdout w)
  ∧ (get_reduced_pentagons factory mp_params prune w = Ret w' →
     worker_results w `prefix_of` worker_results w'
     ∧ stdout w' = stdout w)
  ∧ (pent_verify factory mp_params w = Ret w' →
     worker_results w `prefix_of` worker_results w'
     ∧ stdout w `prefix_of` stdout w').
Proof.
  destruct mp_params as [child_id n_proc].
  set (R1 := λ w1 w2 : worker,
         worker_results w1 `prefix_of` worker_results w2
         ∧ stdout w2 = stdout w1).
  assert (R1refl : ∀ w1, R1 w1 w1) by (by split).
  assert (R1trans : ∀ w1 w2 w3, R1 w1 w2 → R1 w2 w3 → R1 w1 w3).
  { intros w1 w2 w3 [Hp1 He1] [Hp2 He2].
    split; [by transitivity (worker_results w2)|congruence]. }
  assert (R1app : ∀ w1 w2, w2 = w1 ∨ (∃ r, w2 = append r w1) → R1 w1 w2).
  { intros w1 w2 [->|[r ->]]; [apply R1refl|apply grows_append]. }
  split_and!.
  - unfold get_reduced_hexagons. apply (for_each_invariant R1); try done.
    intros it w1 w2 _. unfold hexagon_body.
    destruct (py_stride_test _ _ _) as [[]| |]; try discriminate;
      cbn [mbind outcome_bind].
    + intros Hg%hexagon_generate_appends. by apply R1app.
    + intros [= <-]. apply R1refl.
  - unfold get_reduced_pentagons. cbn [fst snd].
    destruct (as_int child_id) as [c| |]; try discriminate.
    destruct (as_int n_proc) as [n| |]; try discriminate.
    cbn [mbind outcome_bind]. apply (for_each_invariant R1); try done.
    intros it w1 w2 _. unfold pentagon_body.
    destruct (c_stride_test _ _ _) as [[]| |]; try discriminate;
      cbn [mbind outcome_bind].
    + intros Hg%pentagon_generate_appends. by apply R1app.
    + intros [= <-]. apply R1refl.
  - unfold pent_verify.
    destruct (for_each _ _ _) as [w1| |] eqn:Hloop; try discriminate.
    cbn [mbind outcome_bind]. intros [= <-]. cbn [print worker_results stdout].
    assert (Hgrow : worker_results w `prefix_of` worker_results w1
                    ∧ stdout w `prefix_of` stdout w1).
    { revert Hloop.
      apply (for_each_invariant
               (λ s1 s2 : worker,
                  worker_results s1 `prefix_of` worker_results s2
                  ∧ stdout s1 `prefix_of` stdout s2)); [apply grows_refl| |].
      - intros s1 s2 s3 [Ha Hb] [Hc Hd].
        split; [by transitivity (worker_results s2)
               |by transitivity (stdout s2)].
      - intros it s1 s2 _. unfold pent_verify_body.
        destruct (py_stride_test _ _ _) as [mine| |]; try discriminate.
        cbn [mbind outcome_bind].
        assert (Hstep : ∀ s, (if mine then feq_verif factory it.2 None s1
                              else Ret s1) = Ret s →
                  worker_results s1 `prefix_of` worker_results s
                  ∧ stdout s = stdout s1).
        { intros s. destruct mine.
          - intros Hv%feq_verif_appends. by apply R1app.
          - intros [= <-]. by split. }
        destruct (if mine then _ else _) as [s| |]; try discriminate.
        destruct (Hstep s eq_refl) as [Hres Hout].
        cbn [mbind outcome_bind]. destruct (_ && _); intros [= <-];
          cbn [print worker_results stdout]; rewrite ?Hout;
          (split; [exact Hres|]); [by apply prefix_app_r|reflexivity]. }
    destruct Hgrow as [Hres Hout]. split; [exact Hres|by apply prefix_app_r].
Qed.

Lemma for_each_count {X St} (size : St → nat) (gen : X → St → outcome St)
    (xs : list X) (s s' : St) :
  (∀ x s s', gen x s = Ret s' → (size s' ≤ size s + 1)%nat) →
  for_each gen xs s = Ret s' → (size s' ≤ size s + length xs)%nat.
Proof.
  intros Hgen. revert s. induction xs as [|x xs IH]; intros s; cbn [for_each].
  - intros [= <-]. cbn [length]. lia.
  - destruct (gen x s) as [s1| |] eqn:Hx; try discriminate.
    cbn [mbind outcome_bind length]. intros Hs'%IH.
    apply Hgen in Hx. lia.
Qed.

(** X7. A generator loop adds at most one equation for each position of
    its stride: the buffer grows by no more than the number of items the
    worker is assigned. *)
Theorem at_most_one_equation_per_position (factory : FMatrix)
    (child_id n_proc : Z) (prune : option bool) (w w' : worker) :
  n_proc ≠ 0 →
  (get_reduced_hexagons factory (child_id, n_proc) w = Ret w' →
     (length (worker_results w')
      ≤ length (worker_results w)
        + length (hexagon_assigned factory child_id n_proc))%nat)
  ∧ (INT_MIN ≤ child_id ≤ INT_MAX → 0 < n_proc ≤ INT_MAX →
     get_reduced_pentagons factory (child_id, n_proc) prune w = Ret w' →
     (length (worker_results w')
      ≤ length (worker_results w)
        + length (pentagon_assigned factory child_id n_proc))%nat).
Proof.
  intros Hn.
  assert (Hsize : ∀ w1 w2 : worker,
            w2 = w1 ∨ (∃ r, w2 = append r w1) →
            (length (worker_results w2) ≤ length (worker_results w1) + 1)%nat).
  { intros w1 w2 [->|[r ->]]; cbn [append worker_results];
      rewrite ?length_app; cbn [length]; lia. }
  split.
  - rewrite hexagon_loop_assigned by exact Hn.
    apply (for_each_count (λ w : worker, length (worker_results w))).
    intros it w1 w2 Hg%hexagon_generate_appends. by apply Hsize.
  - intros Hc Hp. rewrite pentagon_loop_assigned by assumption.
    apply (for_each_count (λ w : worker, length (worker_results w))).
    intros it w1 w2 Hg%pentagon_generate_appends. by apply Hsize.
Qed.

(** ** Pruning *)

Lemma feq_cy_prune_cases (factory : FMatrix) nonuple pe :
  feq_cy factory nonuple false = Ret pe →
  feq_cy factory nonuple true = Ret pe
  ∨ feq_cy factory nonuple true = Ret (_poly_ring_zero factory).
Proof.
  unfold feq_cy. destruct (unpack9 nonuple) as [[[[[[[[[a b] c] d] e] f] g] k] l]| |];
    try discriminate.
  cbn [mbind outcome_bind].
  destruct (_fmat factory f c d e g l) as [f0| |]; try discriminate.
  cbn [mbind outcome_bind].
  destruct (_fmat factory a b l e f k) as [f1| |]; try discriminate.
  cbn [mbind outcome_bind]. rewrite andb_false_r, andb_true_r.
  destruct (py_eq0 _); [by right|by left].
Qed.

Lemma pentagon_body_prune (factory : FMatrix) child_id n_proc
    (it : Z * list A) (wa wa1 wb : worker) :
  r_is_zero (_poly_ring_zero factory) = true →
  pentagon_body factory false child_id n_proc it wa = Ret wa1 →
  worker_results wb `sublist_of` worker_results wa →
  ∃ wb1, pentagon_body factory true child_id n_proc it wb = Ret wb1
         ∧ worker_results wb1 `sublist_of` worker_results wa1.
Proof.
  intros Hzero. unfold pentagon_body.
  destruct (c_stride_test it.1 n_proc child_id) as [mine| |];
    try discriminate.
  cbn [mbind outcome_bind].
  destruct mine; [|intros [= <-] Hsub; by exists wb].
  unfold pentagon_generate.
  destruct (feq_cy factory it.2 false) as [pe| |] eqn:Hpe; try discriminate.
  cbn [mbind outcome_bind].
  destruct (feq_cy_prune_cases _ _ _ Hpe) as [-> | ->];
    cbn [mbind outcome_bind].
  - destruct (negb (r_is_zero pe)); intros [= <-] Hsub; eexists;
      (split; [reflexivity|]); [|exact Hsub].
    cbn [append worker_results]. by apply sublist_app.
  - rewrite Hzero. cbn [negb].
    destruct (negb (r_is_zero pe)); intros [= <-] Hsub; exists wb;
      (split; [reflexivity|]); [|exact Hsub].
    cbn [append worker_results]. by apply sublist_inserts_r.
Qed.

Lemma pentagon_loop_prune (factory : FMatrix) child_id n_proc
    (xs : list (Z * list A)) (wa wa' wb : worker) :
  r_is_zero (_poly_ring_zero factory) = true →
  for_each (pentagon_body factory false child_id n_proc) xs wa = Ret wa' →
  worker_results wb `sublist_of` worker_results wa →
  ∃ wb', for_each (pentagon_body factory true child_id n_proc) xs wb = Ret wb'
         ∧ worker_results wb' `sublist_of` worker_results wa'.
Proof.
  intros Hzero. revert wa wb. induction xs as [|it xs IH]; intros wa wb.
  - intros [= <-] Hsub. by exists wb.
  - cbn [for_each].
    destruct (pentagon_body factory false child_id n_proc it wa)
      as [wa1| |] eqn:Hstep; try discriminate.
    cbn [mbind outcome_bind]. intros Hloop Hsub.
    destruct (pentagon_body_prune _ _ _ _ _ _ wb Hzero Hstep Hsub)
      as (wb1 & -> & Hsub1).
    cbn [mbind outcome_bind]. by apply (IH wa1).
Qed.

(** X8. Pruning only drops equations.  When the zero of the polynomial
    ring is falsy and the pentagon loop returns without pruning, the loop
    called without [prune] (pruning on) returns as well, and its results
    are a subsequence of the results without pruning; pruning neither adds
    an equation nor changes one. *)
Theorem pruning_only_drops (factory : FMatrix) (mp_params : Z * Z)
    (w w1 : worker) :
  r_is_zero (_poly_ring_zero factory) = true →
  get_reduced_pentagons factory mp_params (Some false) w = Ret w1 →
  ∃ w2, get_reduced_pentagons factory mp_params None w = Ret w2
        ∧ worker_results w2 `sublist_of` worker_results w1.
Proof.
  intros Hzero. unfold get_reduced_pentagons. cbn [default id].
  destruct (as_int mp_params.1) as [c| |]; try discriminate.
  destruct (as_int mp_params.2) as [n| |]; try discriminate.
  cbn [mbind outcome_bind]. intros Hloop.
  by apply (pentagon_loop_prune _ _ _ _ _ _ w Hzero Hloop).
Qed.

(** ** The collector and what feeds it *)

(** X9. What [collect_eqns] returns depends on the entries of the buffer as
    a set only, up to the order of the list: two buffers with the same
    entries, in whatever order and however often, give lists that are
    rearrangements of each other (the order of a list made from a set may
    differ with the order of the insertions).  The list is never longer
    than the buffer, and an empty buffer (as a collection leaves it) gives
    the empty list. *)
Theorem collector_sees_a_set {Proc : Type} (proc : Proc) (w1 w2 : worker) :
  ((∀ r, r ∈ worker_results w1 ↔ r ∈ worker_results w2) →
     (collect_eqns proc w1).1 ≡ₚ (collect_eqns proc w2).1)
  ∧ (length (collect_eqns proc w1).1 ≤ length (worker_results w1))%nat
  ∧ (collect_eqns proc (collect_eqns proc w1).2).1 = [].
Proof.
  split_and!.
  - intros Hsame. apply NoDup_Permutation; [apply NoDup_collect_eqns..|].
    intros r. rewrite !elem_of_collect_eqns, Hsame. reflexivity.
  - apply submseteq_length, NoDup_submseteq; [apply NoDup_collect_eqns|].
    intros r Hr. by apply elem_of_collect_eqns in Hr as [Hr _].
  - apply Permutation_nil_r. unfold collect_eqns, set_list.
    cbn [fst snd worker_results].
    rewrite merge_sort_Permutation.
    rewrite list_to_set_nil, difference_disjoint_L by set_solver.
    by rewrite elements_empty.
Qed.

(** X10. [update_reduce] appends its result even when it is the empty
    tuple; the zero equation leaves the pipeline only at collection: after
    [update_reduce], [collect_eqns] returns the entries held before and the
    reduced equation, the empty tuple excepted. *)
Theorem update_reduce_then_collect {Proc : Type} (proc : Proc)
    (factory : FMatrix) (eq_tup : list (Mon * K)) (w : worker) :
  let eq_dict := subs eq_tup (_kp factory) in
  let reduced :=
    if tup_fixes_sq eq_dict then to_monic eq_dict
    else reduce_poly_dict eq_dict (_nnz factory) (_ks factory) in
  worker_results (update_reduce factory eq_tup w)
  = worker_results w ++ [Eqn reduced]
  ∧ ∀ r, r ∈ (collect_eqns proc (update_reduce factory eq_tup w)).1
         ↔ (r ∈ worker_results w ∨ r = Eqn reduced) ∧ r ≠ Eqn [].
Proof.
  intros eq_dict reduced. split; [reflexivity|].
  intros r. rewrite elem_of_collect_eqns.
  unfold update_reduce. fold eq_dict. fold reduced.
  cbn [append worker_results].
  rewrite elem_of_app, list_elem_of_singleton. reflexivity.
Qed.

(** ** The verification pass *)

Lemma exceeds_nan (tol : spec_float) : exceeds tol S754_nan = false.
Proof. by destruct tol as [[]|[]| |[] m e]. Qed.

(** X11. A deviation that is not a number is never recorded, whatever the
    tolerance: both comparisons of the test are false on it.  Such a
    deviation arises when both sides are the same infinity.  An infinite
    deviation is recorded under the default tolerance. *)
Theorem nan_deviation_not_recorded (factory : FMatrix) (nonuple : list A)
    (tol : option spec_float) (w : worker) :
  (feq_verif_diff factory nonuple = Ret S754_nan →
     feq_verif factory nonuple tol w = Ret w)
  ∧ (∀ s, SFsub float_prec float_emax (S754_infinity s) (S754_infinity s)
          = S754_nan)
  ∧ (∀ s, feq_verif_diff factory nonuple = Ret (S754_infinity s) →
          feq_verif factory nonuple None w
          = Ret (append (Diff (S754_infinity s)) w)).
Proof.
  split_and!.
  - intros Hd. unfold feq_verif. rewrite Hd. cbn [mbind outcome_bind].
    by rewrite exceeds_nan.
  - by intros [].
  - intros s Hd. unfold feq_verif. rewrite Hd. cbn [mbind outcome_bind].
    by destruct s.
Qed.

Lemma last_seqZ (n : nat) :
  last (seqZ 0 (Z.of_nat (S n))) = Some (Z.of_nat n).
Proof. by rewrite seqZ_S, last_snoc. Qed.

(** X12. The summary of [pent_verify].  On a basis that is not empty with
    at most 50,000,000 pentagons, a pass that returns has printed one line
    and no more: the summary, whose count is the last position, that is
    the number of pentagons less one, for every worker alike, and whose
    number of misses is the length of the whole buffer, results held
    before the pass included. *)
Theorem pent_verify_summary (factory : FMatrix) (child_id n_proc : Z)
    (w w' : worker) :
  basis (FR factory) ≠ [] →
  Z.of_nat (length (product (basis (FR factory)) 9)) ≤ 50000000 →
  pent_verify factory (child_id, n_proc) w = Ret w' →
  stdout w'
  = stdout w
    ++ [Summary (Some (Z.of_nat (length (product (basis (FR factory)) 9)) - 1))
          child_id (length (worker_results w'))].
Proof.
  intros Hb Hlen. unfold pent_verify.
  set (items := enumerate_ulong 0 (product (basis (FR factory)) 9)).
  assert (Hfst : items.*1
                 = seqZ 0 (Z.of_nat (length (product (basis (FR factory)) 9)))).
  { apply enumerate_ulong_fst; unfold ULONG_MOD; lia. }
  destruct (for_each _ items w) as [w1| |] eqn:Hloop; try discriminate.
  cbn [mbind outcome_bind]. intros [= <-]. cbn [print stdout worker_results].
  assert (Hout : stdout w1 = stdout w).
  { revert Hloop.
    apply (for_each_invariant (λ s1 s2 : worker, stdout s2 = stdout s1));
      [done|by intros ??? -> ->|].
    intros it s1 s2 Hit. unfold pent_verify_body.
    destruct (py_stride_test _ _ _) as [mine| |]; try discriminate.
    cbn [mbind outcome_bind].
    assert (Hstep : ∀ s, (if mine then feq_verif factory it.2 None s1
                          else Ret s1) = Ret s → stdout s = stdout s1).
    { intros s. destruct mine; [|by intros [= <-]].
      by intros [->|[r ->]]%feq_verif_appends. }
    destruct (if mine then _ else _) as [s| |]; try discriminate.
    cbn [mbind outcome_bind]. rewrite <- (Hstep s eq_refl).
    assert (Hi : it.1 ∈ items.*1) by (apply list_elem_of_fmap; by exists it).
    rewrite Hfst in Hi. apply elem_of_seqZ in Hi.
    rewrite (bool_decide_ext _ (it.1 = 0)); [|rewrite Z.mod_small; lia].
    destruct (bool_decide (it.1 = 0)); by intros [= <-]. }
  rewrite Hout, Hfst. do 3 f_equal.
  destruct (product (basis (FR factory)) 9) as [|t ts] eqn:Hp;
    [by apply product_nonempty in Hp|].
  cbn [length]. rewrite last_seqZ. f_equal. lia.
Qed.

(** ** Dispatch of the state broadcast *)

Lemma this_module_update_child_fmats :
  this_module !! "update_child_fmats"
  = Some (λ (factory : FMatrix) (args : payload) (w : worker),
            match args with
            | DataTup data_tup =>
                Ret (PyNone, update_child_fmats factory data_tup, w)
            | _ => misfit 4 "update_child_fmats" factory args w
            end).
Proof.
  apply this_module_defs.
  unfold module_defs, callable. cbn [list_to_map foldr].
  cbn [fst snd uncurry curry]. unfold callable.
  repeat (rewrite lookup_insert_ne by discriminate).
  apply lookup_insert_eq.
Qed.

Lemma this_module_get_reduced_hexagons :
  this_module !! "get_reduced_hexagons"
  = Some (λ (factory : FMatrix) (args : payload),
            match args with
            | MpParams mp => lift_mapper (λ f, get_reduced_hexagons f mp)
                               factory args
            | _ => misfit 2 "get_reduced_hexagons" factory args
            end).
Proof.
  apply this_module_defs.
  unfold module_defs, callable. cbn [list_to_map foldr].
  cbn [fst snd uncurry curry]. unfold callable.
  repeat (rewrite lookup_insert_ne by discriminate).
  apply lookup_insert_eq.
Qed.

Lemma py_object_value_live (p : process (Mon := Mon) (K := K))
    (fmats_id : Z)
    (fmats_obj : FMatrix) :
  0 < fmats_id < ULONG_MOD → memory p !! fmats_id = Some fmats_obj →
  wrap_ulong fmats_id = fmats_id
  ∧ py_object_value p fmats_id = Ret fmats_obj.
Proof.
  intros Haddr Hm.
  assert (Hw : wrap_ulong fmats_id = fmats_id)
    by (unfold wrap_ulong; apply Z.mod_small; lia).
  split; [exact Hw|]. unfold py_object_value; cbv zeta. rewrite Hw.
  rewrite bool_decide_eq_false_2 by lia. by rewrite Hm.
Qed.

(** X13. A broadcast that is dispatched through [executor] on the address
    of a factory changes the factory that lives there, and nothing else of
    the process: the other objects and the globals of the module are as
    before, and [None] is returned.  A hexagon generation dispatched on
    the same handle afterwards runs on the factory as updated. *)
Theorem broadcast_then_generate (p : process) (fmats_id : Z)
    (fmats_obj : FMatrix)
    (data_tup : gmap (A * A * A * A * A * A) P * Solved * KS * VarDegs)
    (mp_params : Z * Z) :
  0 < fmats_id < ULONG_MOD →
  memory p !! fmats_id = Some fmats_obj →
  let updated := update_child_fmats fmats_obj data_tup in
  let p1 := {| memory := <[fmats_id := updated]> (memory p);
               globals := globals p |} in
  executor this_module (("update_child_fmats", fmats_id), DataTup data_tup) p
  = Ret (PyNone, p1)
  ∧ (∀ other, other ≠ fmats_id → memory p1 !! other = memory p !! other)
  ∧ executor this_module
      (("get_reduced_hexagons", fmats_id), MpParams mp_params) p1
    = w' ← get_reduced_hexagons updated mp_params (globals p);
      Ret (PyNone, {| memory := memory p1; globals := w' |}).
Proof.
  intros Haddr Hm updated p1.
  destruct (py_object_value_live p fmats_id fmats_obj Haddr Hm)
    as [Hw Hobj].
  split_and!.
  - unfold executor. rewrite Hobj, Hw. cbn [mbind outcome_bind].
    rewrite this_module_update_child_fmats. reflexivity.
  - intros other Hne. cbn [memory p1]. by apply lookup_insert_ne.
  - destruct (py_object_value_live p1 fmats_id updated Haddr) as [_ Hobj1];
      [cbn [memory p1]; apply lookup_insert_eq|].
    unfold executor. rewrite Hobj1, Hw. cbn [mbind outcome_bind].
    rewrite this_module_get_reduced_hexagons.
    cbn [memory globals p1].
    unfold lift_mapper.
    destruct (get_reduced_hexagons updated mp_params (globals p));
      cbn [mbind outcome_bind]; [|reflexivity..].
    by rewrite insert_insert_eq.
Qed.

(** ** The one-element basis *)

Lemma fmat_identity_returns (factory : FMatrix) a b c d x y :
  a = one (FR factory) →
  fails_only (λ _, False) (_fmat factory a b c d x y).
Proof.
  intros ->. unfold _fmat; cbv zeta.
  destruct (_ || _); [exact I|].
  rewrite bool_decide_eq_true_2 by reflexivity. by destruct (_ && _).
Qed.

(** X14. On the basis that consists of the identity alone the generators
    never consult [_fvars]: with [n_proc] not zero the hexagon loop
    returns whatever the table holds, even nothing, and so does the
    pentagon loop when the descriptor fits C [int]. *)
Theorem identity_basis_needs_no_table (factory : FMatrix)
    (child_id n_proc : Z) (prune : option bool) (w : worker) :
  basis (FR factory) = [one (FR factory)] → n_proc ≠ 0 →
  (∀ tbl, returns (get_reduced_hexagons (set_fvars tbl factory)
                     (child_id, n_proc) w))
  ∧ (INT_MIN ≤ child_id ≤ INT_MAX → INT_MIN ≤ n_proc ≤ INT_MAX →
     ∀ tbl, returns (get_reduced_pentagons (set_fvars tbl factory)
                       (child_id, n_proc) prune w)).
Proof.
  intros Hb Hn.
  assert (Hfmat : ∀ tbl a b c d x y,
            a ∈ basis (FR (set_fvars tbl factory)) →
            fails_only (λ _, False)
              (_fmat (set_fvars tbl factory) a b c d x y)).
  { intros tbl a b c d x y Ha. apply fmat_identity_returns.
    cbn [set_fvars FR] in *. rewrite Hb in Ha.
    by apply list_elem_of_singleton in Ha. }
  split.
  - intros tbl. apply fails_only_returns.
    apply hexagon_loop_bounded; [|exact Hn]. intros. by apply Hfmat.
  - intros Hc Hp tbl. apply fails_only_returns.
    apply pentagon_loop_bounded; [|by right|exact Hn]. intros. by apply Hfmat.
Qed.

End FurtherProperties.

(** ** The variable remap of the local basis solver *)

Lemma dict_setitem_fresh {Kd V} `{EqDecision Kd} (k : Kd) (v : V)
    (d : list (Kd * V)) :
  k ∉ d.*1 → dict_setitem k v d = d ++ [(k, v)].
Proof.
  induction d as [|kv d IH]; intros Hk; [reflexivity|].
  cbn [dict_setitem]. rewrite fmap_cons in Hk.
  apply not_elem_of_cons in Hk as [Hne Hk].
  rewrite decide_False by congruence. by rewrite IH.
Qed.

(** Assigning fresh keys one after the other lists the items in that
    order. *)
Lemma foldl_setitem_fresh {Kd V} `{EqDecision Kd} (kvs d0 : list (Kd * V)) :
  NoDup (d0.*1 ++ kvs.*1) →
  foldl (λ d kv, dict_setitem kv.1 kv.2 d) d0 kvs = d0 ++ kvs.
Proof.
  revert d0. induction kvs as [|[k v] kvs IH]; intros d0 Hnd.
  - by rewrite app_nil_r.
  - cbn [foldl fst snd]. rewrite dict_setitem_fresh.
    + rewrite IH; [by rewrite <- app_assoc|].
      by rewrite fmap_app, <- app_assoc.
    + rewrite fmap_cons in Hnd. apply NoDup_app in Hnd as (_ & Hdis & _).
      intros Hk. apply (Hdis k Hk). left.
Qed.

Lemma dict_getitem_items {Kd V} `{EqDecision Kd} (k : Kd) (v : V)
    (d : list (Kd * V)) :
  NoDup d.*1 → dict_getitem k d = Some v ↔ (k, v) ∈ d.
Proof.
  induction d as [|[k' v'] d IH]; intros Hnd.
  - split; [discriminate|intros Hin; inversion Hin].
  - rewrite fmap_cons in Hnd. apply NoDup_cons in Hnd as [Hk' Hnd].
    cbn [dict_getitem fst snd]. rewrite elem_of_cons.
    destruct (decide (k' = k)) as [->|Hne].
    + split; [intros [= ->]; by left|].
      intros [[= ->]|Hin]; [reflexivity|].
      exfalso. apply Hk'. apply list_elem_of_fmap. by exists (k, v).
    + rewrite IH by exact Hnd. split; [by right|].
      intros [[= -> ->]|Hin]; [done|exact Hin].
Qed.

Lemma elem_of_sorted_set (l : list nat) (x : nat) :
  x ∈ sorted_set l ↔ x ∈ l.
Proof.
  unfold sorted_set. rewrite merge_sort_Permutation, elem_of_elements.
  apply elem_of_list_to_set.
Qed.

Lemma NoDup_sorted_set (l : list nat) : NoDup (sorted_set l).
Proof.
  unfold sorted_set. rewrite merge_sort_Permutation. apply NoDup_elements.
Qed.

Lemma sorted_set_increasing (l : list nat) (i j x y : nat) :
  sorted_set l !! i = Some x → sorted_set l !! j = Some y →
  (i < j)%nat → (x < y)%nat.
Proof.
  intros Hi Hj Hij.
  assert (Hsorted : StronglySorted (≤)%nat (sorted_set l))
    by apply (StronglySorted_merge_sort (≤)%nat).
  assert (Hle : (x ≤ y)%nat).
  { revert i j Hi Hj Hij. induction Hsorted as [|a l' Hl' IH Ha];
      intros i j Hi Hj Hij; [by rewrite lookup_nil in Hi|].
    destruct j as [|j]; [lia|]. cbn in Hj.
    destruct i as [|i].
    - cbn in Hi. injection Hi as ->. rewrite Forall_forall in Ha.
      apply Ha. by apply list_elem_of_lookup_2 in Hj.
    - cbn in Hi. apply (IH i j); [done..|lia]. }
  destruct (decide (x = y)) as [->|]; [|lia].
  pose proof (NoDup_lookup _ _ _ _ (NoDup_sorted_set l) Hi Hj). lia.
Qed.

Section GroebnerProperties.
Context {A : Type} `{Countable A}.
Context {P Mon K Solved KS VarDegs NNZ KP : Type}.
Context {Fld Ring Poly Order : Type}.
Context `{!@Groebner.GroebnerEngine A _ _ P Mon K Solved KS VarDegs NNZ KP
             Fld Ring Poly Order}.

Abbreviation FMatrix := (@FMatrix A _ _ P Solved KS VarDegs NNZ KP).
Abbreviation worker := (@worker Mon K).
Implicit Types eqns : list (list (Mon * K)).

Lemma idx_map_items eqns :
  Groebner.idx_map eqns = imap (λ i x, (x, i)) (Groebner.sorted_vars eqns).
Proof.
  unfold Groebner.idx_map, enumerate.
  set (sv := Groebner.sorted_vars eqns).
  change (foldl (λ d it, dict_setitem it.2 it.1 d) [] (imap pair sv))
    with (foldl (λ d it, dict_setitem (prod_swap it).1 (prod_swap it).2 d)
            [] (imap pair sv)).
  rewrite <- (foldl_fmap (λ d kv, dict_setitem kv.1 kv.2 d) [] _ prod_swap).
  rewrite foldl_setitem_fresh.
  - by rewrite fmap_imap.
  - cbn [fmap list_fmap app]. rewrite <- list_fmap_compose, fmap_imap.
    rewrite (imap_ext _ (const id)) by done.
    rewrite imap_const, list_fmap_id. apply NoDup_sorted_set.
Qed.

Lemma inv_idx_map_items eqns :
  Groebner.inv_idx_map eqns = enumerate (Groebner.sorted_vars eqns).
Proof.
  unfold Groebner.inv_idx_map. rewrite idx_map_items.
  set (sv := Groebner.sorted_vars eqns).
  change (foldl (λ d kv, dict_setitem kv.2 kv.1 d) []
            (imap (λ i x, (x, i)) sv))
    with (foldl (λ d kv, dict_setitem (prod_swap kv).1 (prod_swap kv).2 d)
            [] (imap (λ i x, (x, i)) sv)).
  rewrite <- (foldl_fmap (λ d kv, dict_setitem kv.1 kv.2 d) [] _ prod_swap).
  rewrite foldl_setitem_fresh.
  - by rewrite fmap_imap.
  - cbn [fmap list_fmap app]. rewrite <- list_fmap_compose, fmap_imap.
    rewrite (imap_ext _ (λ i _, id i)) by done.
    rewrite imap_seq_0, list_fmap_id. apply NoDup_seq.
Qed.

Lemma NoDup_idx_map_keys eqns : NoDup (Groebner.idx_map eqns).*1.
Proof.
  rewrite idx_map_items, fmap_imap.
  rewrite (imap_ext _ (const id)) by done.
  rewrite imap_const, list_fmap_id. apply NoDup_sorted_set.
Qed.

Lemma NoDup_inv_idx_map_keys eqns : NoDup (Groebner.inv_idx_map eqns).*1.
Proof.
  rewrite inv_idx_map_items. unfold enumerate. rewrite fmap_imap.
  rewrite (imap_ext _ (λ i _, id i)) by done.
  rewrite imap_seq_0, list_fmap_id. apply NoDup_seq.
Qed.

Lemma idx_map_lookup eqns (old new : nat) :
  dict_getitem old (Groebner.idx_map eqns) = Some new
  ↔ Groebner.sorted_vars eqns !! new = Some old.
Proof.
  rewrite dict_getitem_items by apply NoDup_idx_map_keys.
  rewrite idx_map_items, elem_of_lookup_imap. split.
  - by intros (i & x & [= -> ->] & Hx).
  - intros Hx. by exists new, old.
Qed.

(** X15. The variable remap of [compute_gb].  [idx_map] sends a variable
    to its rank among the variables of the batch: its keys are exactly the
    variables that occur in some equation, its values are exactly the
    indices below the number of variables of the compact ring, and it
    preserves the order of the variables (so that it is one-to-one). *)
Theorem idx_map_is_the_rank eqns :
  (∀ old new, dict_getitem old (Groebner.idx_map eqns) = Some new
                ↔ Groebner.sorted_vars eqns !! new = Some old)
  ∧ (∀ old, is_Some (dict_getitem old (Groebner.idx_map eqns))
            ↔ ∃ eq_tup, eq_tup ∈ eqns ∧ old ∈ Groebner.variables eq_tup)
  ∧ (∀ new, is_Some (Groebner.inv_idx_map eqns !! new)
            ↔ (new < length (Groebner.sorted_vars eqns))%nat)
  ∧ (∀ new, (∃ old, dict_getitem old (Groebner.idx_map eqns) = Some new)
            ↔ (new < length (Groebner.sorted_vars eqns))%nat)
  ∧ (∀ old1 old2 new1 new2,
       dict_getitem old1 (Groebner.idx_map eqns) = Some new1 →
       dict_getitem old2 (Groebner.idx_map eqns) = Some new2 →
       (old1 < old2)%nat ↔ (new1 < new2)%nat).
Proof.
  split_and!.
  - apply idx_map_lookup.
  - intros old. split.
    + intros [new Hnew]. apply idx_map_lookup in Hnew.
      apply list_elem_of_lookup_2 in Hnew.
      unfold Groebner.sorted_vars in Hnew.
      apply elem_of_sorted_set, list_elem_of_bind in Hnew
        as (eq_tup & Hold & Hin).
      by exists eq_tup.
    + intros (eq_tup & Hin & Hold).
      assert (Hsv : old ∈ Groebner.sorted_vars eqns).
      { apply elem_of_sorted_set, list_elem_of_bind. by exists eq_tup. }
      apply list_elem_of_lookup in Hsv as [new Hnew].
      exists new. by apply idx_map_lookup.
  - intros new. rewrite inv_idx_map_items. unfold enumerate.
    by rewrite lookup_lt_is_Some, length_imap.
  - intros new. rewrite <- lookup_lt_is_Some. split.
    + intros [old Hold]. exists old. by apply idx_map_lookup.
    + intros [old Hold]. exists old. by apply idx_map_lookup.
  - intros old1 old2 new1 new2 H1%idx_map_lookup H2%idx_map_lookup.
    split; intros Hlt.
    + destruct (decide (new1 < new2)%nat) as [|Hge]; [done|].
      destruct (decide (new1 = new2)) as [->|Hne]; [simplify_eq; lia|].
      pose proof (sorted_set_increasing _ _ _ _ _ H2 H1). lia.
    + by apply (sorted_set_increasing _ _ _ _ _ H1 H2).
Qed.

(** X16. [inv_idx_map] undoes [idx_map]: it sends an index of the compact
    ring to a variable exactly when [idx_map] sends that variable to that
    index; going there and back gives the variable again, and back and
    there the index. *)
Theorem inv_idx_map_inverts eqns :
  (∀ old new, dict_getitem new (Groebner.inv_idx_map eqns) = Some old
                ↔ dict_getitem old (Groebner.idx_map eqns) = Some new)
  ∧ (∀ old new, dict_getitem old (Groebner.idx_map eqns) = Some new →
                dict_getitem new (Groebner.inv_idx_map eqns) = Some old)
  ∧ (∀ old new, dict_getitem new (Groebner.inv_idx_map eqns) = Some old →
                dict_getitem old (Groebner.idx_map eqns) = Some new)
  ∧ length (Groebner.inv_idx_map eqns) = length (Groebner.idx_map eqns).
Proof.
  assert (Hiff : ∀ old new,
            dict_getitem new (Groebner.inv_idx_map eqns) = Some old
            ↔ dict_getitem old (Groebner.idx_map eqns) = Some new).
  { intros old new.
    rewrite dict_getitem_items by apply NoDup_inv_idx_map_keys.
    rewrite idx_map_lookup, inv_idx_map_items.
    unfold enumerate. rewrite elem_of_lookup_imap. split.
    - by intros (i & x & [= -> ->] & Hx).
    - intros Hx. by exists new, old. }
  split_and!; [exact Hiff|intros; by apply Hiff..|].
  rewrite inv_idx_map_items, idx_map_items. unfold enumerate.
  by rewrite !length_imap.
Qed.



End GroebnerProperties.

(** * Further properties on concrete inputs *)

Section FurtherExamples.
Import Toy ToyGroebner ToyEdge.

Lemma fvars_complete_factory : fvars_complete (factory [0; 1]%nat).
Proof.
  intros a b c d x y Ha Hb Hc Hd Hx Hy.
  cbn [factory FR basis ring] in *.
  assert (Hall :
    Forall (λ a, Forall (λ b, Forall (λ c, Forall (λ d, Forall (λ x,
      Forall (λ y, is_Some (fvars [0; 1]%nat !! (a, b, c, d, x, y)))
        [0; 1]%nat) [0; 1]%nat) [0; 1]%nat) [0; 1]%nat) [0; 1]%nat)
      [0; 1]%nat).
  { apply (bool_decide_unpack _). by vm_compute. }
  rewrite Forall_forall in Hall. specialize (Hall a Ha).
  rewrite Forall_forall in Hall. specialize (Hall b Hb).
  rewrite Forall_forall in Hall. specialize (Hall c Hc).
  rewrite Forall_forall in Hall. specialize (Hall d Hd).
  rewrite Forall_forall in Hall. specialize (Hall x Hx).
  rewrite Forall_forall in Hall. exact (Hall y Hy).
Qed.

(** With an empty table both loops raise [KeyError]; a worker id beyond C
    [int] makes the pentagon loop raise [OverflowError]. *)
Lemma generator_loops_failure_modes_witness :
  get_reduced_hexagons no_table (0, 3) w7 = Raise KeyError
  ∧ get_reduced_pentagons no_table (0, 3) None w7 = Raise KeyError
  ∧ get_reduced_pentagons (factory [0; 1]%nat) (2 ^ 40, 3) None w7
    = Raise OverflowError
  ∧ fails_only (λ e, e = KeyError) (get_reduced_hexagons no_table (0, 3) w7)
  ∧ fails_only (λ e, e = KeyError ∨ e = OverflowError)
      (get_reduced_pentagons (factory [0; 1]%nat) (2 ^ 40, 3) None w7).
Proof.
  destruct (generator_loops_failure_modes no_table 0 3 None w7)
    as [Hhex _]; [lia|].
  destruct (generator_loops_failure_modes (factory [0; 1]%nat) (2 ^ 40) 3
              None w7) as [_ Hpent]; [lia|].
  split_and!; [by vm_compute..|exact Hhex|exact Hpent].
Defined.

Lemma generator_loops_return_witness :
  returns (get_reduced_hexagons (factory [0; 1]%nat) (0, 3) w7)
  ∧ returns (get_reduced_pentagons (factory [0; 1]%nat) (0, 3) None w7).
Proof.
  destruct (generator_loops_return (factory [0; 1]%nat) 0 3 None w7)
    as [Hhex Hpent]; [exact fvars_complete_factory|lia|].
  split; [exact Hhex|].
  apply Hpent; unfold INT_MIN, INT_MAX; lia.
Defined.

Lemma zero_workers_witness :
  get_reduced_hexagons z2_factory (0, 0) w0 = Raise ZeroDivisionError
  ∧ pent_verify z2_factory (0, 0) w0 = Raise ZeroDivisionError
  ∧ get_reduced_pentagons z2_factory (0, 0) None w0 = Undefined.
Proof.
  destruct (zero_workers z2_factory 0 None w0) as (Hhex & Hver & Hpent);
    [discriminate|].
  split_and!; [exact Hhex|exact Hver|].
  apply Hpent. unfold INT_MIN, INT_MAX; lia.
Defined.

Lemma empty_basis_witness :
  get_reduced_hexagons (factory []) (0, 0) w7 = Ret w7
  ∧ pent_verify (factory []) (1, 2) w7
    = Ret {| worker_results := [Eqn [([], 7)]];
             stdout := [Summary None 1 1] |}
  ∧ get_reduced_pentagons (factory []) (0, 0) None w7 = Ret w7.
Proof.
  destruct (empty_basis (factory []) 0 0 None w7) as (Hhex & _ & Hpent);
    [reflexivity|].
  destruct (empty_basis (factory []) 1 2 None w7) as (_ & Hver & _);
    [reflexivity|].
  split_and!; [exact Hhex|exact Hver|].
  apply Hpent; unfold INT_MIN, INT_MAX; lia.
Defined.

Lemma worker_id_out_of_range_witness :
  get_reduced_hexagons (factory [0; 1]%nat) (5, 3) w7 = Ret w7
  ∧ get_reduced_hexagons (factory [0; 1]%nat) (-1, 3) w7 = Ret w7
  ∧ get_reduced_pentagons (factory [0; 1]%nat) (-1, 3) None w7 = Ret w7.
Proof.
  destruct (worker_id_out_of_range (factory [0; 1]%nat) 5 3 None w7)
    as (Hhex5 & _); [lia..|].
  destruct (worker_id_out_of_range (factory [0; 1]%nat) (-1) 3 None w7)
    as (Hhex & _ & Hpent); [lia..|].
  split_and!; [exact Hhex5|exact Hhex|].
  apply Hpent; unfold INT_MIN, INT_MAX; lia.
Defined.

Lemma mappers_only_append_witness :
  [Eqn [([], 7)]]
    `prefix_of` [Eqn [([], 7)]; Eqn ([([], -1)] : list (list nat * Z))]
  ∧ worker_results w7
    `prefix_of` Eqn [([], 7)]
                :: replicate 6 (Diff (S754_finite true 8388608 (-23)))
  ∧ stdout w7 `prefix_of` [Summary (Some 511) 0 7].
Proof.
  destruct (mappers_only_append (factory [0; 1]%nat) (0, 3) None w7
              {| worker_results := [Eqn [([], 7)]; Eqn [([], -1)]];
                 stdout := [] |}) as (_ & Hpent & _).
  destruct (mappers_only_append (factory [0; 1]%nat) (0, 3) None w7
              {| worker_results :=
                   Eqn [([], 7)]
                   :: replicate 6 (Diff (S754_finite true 8388608 (-23)));
                 stdout := [Summary (Some 511) 0 7] |}) as (_ & _ & Hver).
  split; [apply Hpent; by vm_compute|apply Hver; by vm_compute].
Defined.

(** Worker 0 of 3 is assigned 22 sextuples and finds three equations. *)
Lemma at_most_one_equation_per_position_witness :
  (length [Eqn [([], 7%Z)]; Eqn [([], (-1)%Z)]; Eqn [([], (-1)%Z)];
           Eqn ([([], (-1)%Z)] : list (list nat * Z))]
   ≤ length (worker_results w7)
     + length (hexagon_assigned (factory [0; 1]%nat) 0 3))%nat
  ∧ length (hexagon_assigned (factory [0; 1]%nat) 0 3) = 22%nat.
Proof.
  destruct (at_most_one_equation_per_position (factory [0; 1]%nat) 0 3
              None w7
              {| worker_results :=
                   [Eqn [([], 7)]; Eqn [([], -1)]; Eqn [([], -1)];
                    Eqn [([], -1)]];
                 stdout := [] |}) as [Hhex _]; [lia|].
  split; [apply Hhex|]; by vm_compute.
Defined.

Lemma pruning_only_drops_witness :
  ∃ w2, get_reduced_pentagons (factory [0; 1]%nat) (0, 3) None w0 = Ret w2
        ∧ worker_results w2 `sublist_of` replicate 6 (Eqn [([], -1)]).
Proof.
  apply (pruning_only_drops (factory [0; 1]%nat) (0, 3) w0
           {| worker_results := replicate 6 (Eqn [([], -1)]);
              stdout := [] |}); by vm_compute.
Defined.

(** Two buffers with the same entries: the lists are rearrangements of
    each other, and with iteration in the order of insertion they
    differ. *)
Lemma collector_sees_a_set_witness :
  (collect_eqns ()
     {| worker_results := [Eqn [([], 7)]; Eqn [([], -1)]; Eqn [([], 7)]];
        stdout := [] |}).1
  ≡ₚ (collect_eqns ()
        {| worker_results :=
             [Eqn [([], -1)]; Eqn ([([], 7)] : list (list nat * Z))];
           stdout := [] |}).1
  ∧ (collect_eqns ()
       {| worker_results := [Eqn [([], 7)]; Eqn [([], -1)]; Eqn [([], 7)]];
          stdout := [] |}).1
    = [Eqn [([], 7)]; Eqn ([([], -1)] : list (list nat * Z))]
  ∧ (collect_eqns ()
       {| worker_results :=
            [Eqn [([], -1)]; Eqn ([([], 7)] : list (list nat * Z))];
          stdout := [] |}).1
    = [Eqn [([], -1)]; Eqn [([], 7)]].
Proof.
  destruct (collector_sees_a_set ()
              {| worker_results :=
                   [Eqn [([], 7)]; Eqn [([], -1)]; Eqn [([], 7)]];
                 stdout := [] |}
              {| worker_results :=
                   [Eqn [([], -1)]; Eqn ([([], 7)] : list (list nat * Z))];
                 stdout := [] |}) as (Hsame & _).
  split_and!; [|by vm_compute..].
  apply Hsame. intros r. cbn [worker_results].
  rewrite !elem_of_cons, !elem_of_nil. tauto.
Defined.

(** An F-symbol of [2^200] makes both sides of the pentagon infinite and
    the deviation not a number: nothing is recorded.  With one side
    infinite the deviation is infinite, and is recorded. *)
Lemma nan_deviation_not_recorded_witness :
  feq_verif overflowing ones None w0 = Ret w0
  ∧ feq_verif one_sided [1; 1; 1; 1; 1; 1; 1; 1; 2]%nat None w0
    = Ret (append (Diff (S754_infinity false)) w0).
Proof.
  destruct (nan_deviation_not_recorded overflowing ones None w0)
    as (Hnan & _).
  destruct (nan_deviation_not_recorded one_sided
              [1; 1; 1; 1; 1; 1; 1; 1; 2]%nat None w0) as (_ & _ & Hinf).
  split; [apply Hnan|apply Hinf]; by vm_compute.
Defined.

(** Worker 0 of 3 on 512 pentagons reports 511 pentagons and 7 misses, of
    which one is the equation that the buffer held before the pass. *)
Lemma pent_verify_summary_witness :
  stdout {| worker_results :=
              Eqn ([([], 7)] : list (list nat * Z))
              :: replicate 6 (Diff (S754_finite true 8388608 (-23)));
            stdout := [Summary (Some 511) 0 7] |}
  = stdout w7
    ++ [Summary
          (Some (Z.of_nat (length (product (basis (FR (factory [0; 1]%nat)))
                                     9)) - 1))
          0 7].
Proof.
  apply (pent_verify_summary (factory [0; 1]%nat) 0 3 w7
           {| worker_results :=
                Eqn [([], 7)]
                :: replicate 6 (Diff (S754_finite true 8388608 (-23)));
              stdout := [Summary (Some 511) 0 7] |});
    [discriminate|by vm_compute..].
Defined.

Lemma broadcast_then_generate_witness :
  executor this_module
    (("update_child_fmats", 7), DataTup (∅, [2%nat], [3%nat], [4%nat])) proc7
  = Ret (PyNone,
         {| memory :=
              <[7 := update_child_fmats z2_factory
                       (∅, [2%nat], [3%nat], [4%nat])]> (memory proc7);
            globals := globals proc7 |}).
Proof.
  destruct (broadcast_then_generate proc7 7 z2_factory
              (∅, [2%nat], [3%nat], [4%nat]) (0, 1)) as (Hcall & _);
    [by vm_compute..|].
  exact Hcall.
Defined.

Lemma identity_basis_needs_no_table_witness :
  returns (get_reduced_hexagons (set_fvars ∅ (factory [0%nat])) (0, 1) w0)
  ∧ returns (get_reduced_pentagons (set_fvars ∅ (factory [0%nat])) (0, 1)
               None w0).
Proof.
  destruct (identity_basis_needs_no_table (factory [0%nat]) 0 1 None w0)
    as [Hhex Hpent]; [reflexivity|lia|].
  split; [apply Hhex|].
  apply Hpent; unfold INT_MIN, INT_MAX; lia.
Defined.

(** The batch [x1^2 - 4], [5 x1 x3] has the variables 1 and 3, which become
    0 and 1. *)
Lemma idx_map_is_the_rank_witness :
  Groebner.idx_map batch = [(1, 0); (3, 1)]%nat
  ∧ ((1 < 3)%nat ↔ (0 < 1)%nat)
  ∧ Groebner.sorted_vars batch !! 1%nat = Some 3%nat.
Proof.
  destruct (idx_map_is_the_rank batch) as (Hrank & _ & _ & _ & Horder).
  split_and!; [by vm_compute| |].
  - apply (Horder 1 3 0 1)%nat; by vm_compute.
  - apply Hrank. by vm_compute.
Defined.

Lemma inv_idx_map_inverts_witness :
  Groebner.inv_idx_map batch = [(0, 1); (1, 3)]%nat
  ∧ dict_getitem 1%nat (Groebner.inv_idx_map batch) = Some 3%nat
  ∧ dict_getitem 1%nat (Groebner.idx_map batch) = Some 0%nat.
Proof.
  split_and!; [by vm_compute| |].
  - destruct (inv_idx_map_inverts batch) as (_ & Hthere & _).
    apply Hthere. by vm_compute.
  - destruct (inv_idx_map_inverts batch) as (_ & _ & Hback & _).
    apply Hback. by vm_compute.
Defined.


End FurtherExamples.
